(** * semver-action: the version-selection pipeline of [src/main.ts]

    A shallow embedding of [src/main.ts] together with the parts of its npm
    dependencies that the file calls ([semver], [@actions/core] and
    [@actions/github]), followed by the vocabulary and the properties of the
    pipeline: parsing a label, filtering and ranking, resolving the increment
    level, bumping, and the run as a whole.

    Conventions of the embedding.
    - A JavaScript string is a [string]; its characters are read as code
      units below 256.
    - A JavaScript number that holds a version component is an [N].  Every
      component that survives the [SemVer] constructor is at most
      [MAX_SAFE_INTEGER], where doubles are exact.  Where the code converts
      a longer string of digits to a number, the rounding to a double is
      [Js.toDouble].
    - A thrown exception is the [Throw] case of [result].
    - [core.info] only appends a line to the job log; the trace lines are not
      part of the embedding.  [core.setOutput] and [core.setFailed] are the
      events of [HostEvent], recorded in call order. *)

From Stdlib Require Import Bool Ascii String List NArith ZArith Lia.
From Stdlib Require Import Sorted Permutation.
From Stdlib Require Import DecimalString DecimalN DecimalPos DecimalFacts.
Import ListNotations.

Local Open Scope string_scope.
Local Open Scope N_scope.

(* ------------------------------------------------------------------ *)
(** ** Exceptions *)

Inductive JsError : Type :=
| Error (message : string)
| TypeError (message : string).

Inductive result (A : Type) : Type :=
| Ok (a : A)
| Throw (e : JsError).

Arguments Ok {A} a.
Arguments Throw {A} e.

Definition bind {A B} (r : result A) (k : A -> result B) : result B :=
  match r with
  | Ok a => k a
  | Throw e => Throw e
  end.

Notation "x <- r ;; k" := (bind r (fun x => k))
  (at level 61, r at next level, right associativity).

(** [Array.prototype.map] with a callback that may throw: the first
    exception aborts the traversal. *)
Fixpoint mapM {A B} (f : A -> result B) (l : list A) : result (list B) :=
  match l with
  | [] => Ok []
  | a :: l' =>
      b <- f a ;;
      bs <- mapM f l' ;;
      Ok (b :: bs)
  end.

(* ------------------------------------------------------------------ *)
(** ** JavaScript strings *)

Module Js.

Definition code (c : ascii) : N := N_of_ascii c.

(** The class [\d] (without the [u] flag it is exactly [0-9]). *)
Definition isDigit (c : ascii) : bool := (48 <=? code c) && (code c <=? 57).

(** The class [[a-zA-Z-]]. *)
Definition isLetterDash (c : ascii) : bool :=
  ((97 <=? code c) && (code c <=? 122))
  || ((65 <=? code c) && (code c <=? 90))
  || (code c =? 45).

(** The class [[a-zA-Z0-9-]]. *)
Definition isIdentChar (c : ascii) : bool := isDigit c || isLetterDash c.

(** White space and line terminators removed by [String.prototype.trim],
    among the code units below 256. *)
Definition isSpace (c : ascii) : bool :=
  ((9 <=? code c) && (code c <=? 13)) || (code c =? 32) || (code c =? 160).

Fixpoint forallb (p : ascii -> bool) (s : string) : bool :=
  match s with
  | EmptyString => true
  | String c s' => p c && forallb p s'
  end.

(** The longest prefix of [s] whose characters satisfy [p], and the rest:
    what a greedy [p+] or [p*] consumes when nothing after it forces it to
    give characters back. *)
Fixpoint span (p : ascii -> bool) (s : string) : string * string :=
  match s with
  | EmptyString => (EmptyString, EmptyString)
  | String c s' =>
      if p c then let (a, b) := span p s' in (String c a, b)
      else (EmptyString, s)
  end.

Fixpoint dropWhile (p : ascii -> bool) (s : string) : string :=
  match s with
  | EmptyString => EmptyString
  | String c s' => if p c then dropWhile p s' else s
  end.

(** [s.trimEnd()] *)
Fixpoint trimEnd (s : string) : string :=
  match s with
  | EmptyString => EmptyString
  | String c s' =>
      match trimEnd s' with
      | EmptyString => if isSpace c then EmptyString else String c EmptyString
      | String _ _ as t => String c t
      end
  end.

(** [s.trim()] *)
Definition trim (s : string) : string := trimEnd (dropWhile isSpace s).

(** [s.startsWith(p)] *)
Definition startsWith (s p : string) : bool := String.prefix p s.

(** [s.includes(t)] *)
Fixpoint includes (s t : string) : bool :=
  String.prefix t s
  || match s with
     | EmptyString => false
     | String _ s' => includes s' t
     end.

(** [s.split(sep)] for a separator of one character. *)
Fixpoint split (sep : ascii) (s : string) : list string :=
  match s with
  | EmptyString => [EmptyString]
  | String c s' =>
      if Ascii.eqb c sep then EmptyString :: split sep s'
      else match split sep s' with
           | [] => [String c EmptyString]
           | h :: t => String c h :: t
           end
  end.

(** [l.join(sep)] *)
Definition join (sep : string) (l : list string) : string := String.concat sep l.

(** Unary [+] on a string of decimal digits. *)
Fixpoint toNumber_acc (acc : N) (s : string) : N :=
  match s with
  | EmptyString => acc
  | String c s' => toNumber_acc (10 * acc + (code c - 48)) s'
  end.

Definition toNumber (s : string) : N := toNumber_acc 0 s.

(** The number that stands for [Infinity] among the doubles read as
    integers: every finite double is below it. *)
Definition infinity : N := 2 ^ 1024.

(** The double that holds the integer [n]: [n] itself when it fits the 53
    bits of the significand, otherwise [n] rounded to 53 significant bits,
    to the nearest and on a tie to the even significand; a value that
    rounds to 2^1024 or more is [Infinity].  So [toDouble (toNumber s)] is
    unary [+] on a string of decimal digits of any length. *)
Definition toDouble (n : N) : N :=
  let e := N.size n - 53 in
  let q := N.shiftr n e in
  let r := N.land n (N.ones e) in
  let half := N.shiftl 1 (e - 1) in
  let q' := if (half <? r) || ((half =? r) && N.odd q) then q + 1 else q in
  N.min (N.shiftl q' e) infinity.

(** [String(n)] / template interpolation of a non-negative integer. *)
Definition ofNumber (n : N) : string := NilZero.string_of_uint (N.to_uint n).

(** [Array.prototype.sort(comparefn)].  The sort is stable, and for a
    consistent comparator its result is the one stable ordering of the
    elements; it is computed here by stable insertion. *)
Fixpoint insert {A} (comparefn : A -> A -> Z) (x : A) (l : list A) : list A :=
  match l with
  | [] => [x]
  | y :: l' =>
      if (comparefn x y <=? 0)%Z then x :: l
      else y :: insert comparefn x l'
  end.

Definition sort {A} (comparefn : A -> A -> Z) (l : list A) : list A :=
  fold_right (insert comparefn) [] l.

(** The double quote character, for messages that contain it. *)
Definition dquote : string := String (ascii_of_N 34) EmptyString.

End Js.

(* ------------------------------------------------------------------ *)
(** ** The regular expression of the [Version] constructor *)

Module VersionRegex.

(** [/(\d+\.\d+\.\d+)/] tried at the first character of [s].  A digit run is
    always followed by a non-digit or the end, so each greedy [\d+] keeps its
    whole run and no backtracking changes the outcome. *)
Definition match_here (s : string) : option string :=
  let (d1, r1) := Js.span Js.isDigit s in
  match d1, r1 with
  | String _ _, String "." r1' =>
      let (d2, r2) := Js.span Js.isDigit r1' in
      match d2, r2 with
      | String _ _, String "." r2' =>
          let (d3, _) := Js.span Js.isDigit r2' in
          match d3 with
          | String _ _ => Some (d1 ++ "." ++ d2 ++ "." ++ d3)
          | EmptyString => None
          end
      | _, _ => None
      end
  | _, _ => None
  end.

(** [raw.match(/(\d+\.\d+\.\d+)/)]: the leftmost start position that
    matches; the result is [versionMatch[0]], or [None] for [null]. *)
Fixpoint exec (raw : string) : option string :=
  match match_here raw with
  | Some m => Some m
  | None =>
      match raw with
      | EmptyString => None
      | String _ raw' => exec raw'
      end
  end.

End VersionRegex.

(* ------------------------------------------------------------------ *)
(** ** The [semver] package

    The parts of the npm package [semver] (7.x, default options: strict, no
    [includePrerelease]) that [main.ts] calls: the [SemVer] class with its
    constructor, [format], [compare] and [inc], and the functions [parse],
    [coerce] and [compare]. *)

Module ReleaseType.
(** The values of [semver.ReleaseType] that [getIncrementLevelFromTitle]
    returns. *)
Inductive t : Type := major | minor | patch.
End ReleaseType.

Module semver.

Definition MAX_LENGTH : nat := 256.
Definition MAX_SAFE_INTEGER : N := 9007199254740991.
Definition MAX_SAFE_COMPONENT_LENGTH : nat := 16.

(** A prerelease identifier is a number or a string. *)
Inductive Identifier : Type :=
| IdNum (n : N)
| IdStr (s : string).

(** The fields of a [SemVer] object.  Its [version] field always holds the
    result of [format] and is read through it. *)
Record SemVer : Type := {
  raw : string;
  major : N;
  minor : N;
  patch : N;
  prerelease : list Identifier;
  build : list string
}.

Definition nonEmpty (s : string) : bool :=
  match s with EmptyString => false | String _ _ => true end.

(** [NUMERICIDENTIFIER]: [0|[1-9]\d*] *)
Definition isNumericIdentifier (s : string) : bool :=
  match s with
  | EmptyString => false
  | String c s' =>
      Js.isDigit c && Js.forallb Js.isDigit s'
      && (negb (Ascii.eqb c "0") || negb (nonEmpty s'))
  end.

(** [/^[0-9]+$/] *)
Definition isNumeric (s : string) : bool := nonEmpty s && Js.forallb Js.isDigit s.

(** [PRERELEASEIDENTIFIER]: [NUMERICIDENTIFIER] or
    [\d*[a-zA-Z-][a-zA-Z0-9-]*] *)
Definition isPrereleaseIdentifier (s : string) : bool :=
  nonEmpty s && Js.forallb Js.isIdentChar s
  && (if Js.forallb Js.isDigit s then isNumericIdentifier s else true).

(** [BUILDIDENTIFIER]: [[0-9A-Za-z-]+] *)
Definition isBuildIdentifier (s : string) : bool :=
  nonEmpty s && Js.forallb Js.isIdentChar s.

(** The capture groups 1 to 5 of [FULL]. *)
Record FullMatch : Type := {
  m1 : string; m2 : string; m3 : string;
  m4 : option string; m5 : option string
}.

(** The end of [FULL] after the main version: [(?:-(PRE))?(?:\+(BUILD))?$]
    with [PRE] and [BUILD] dot-separated lists of identifiers. *)
Definition matchSuffix (a b c rest : string) : option FullMatch :=
  match rest with
  | EmptyString =>
      Some {| m1 := a; m2 := b; m3 := c; m4 := None; m5 := None |}
  | String "-" r =>
      let (pre, r') := Js.span (fun ch => negb (Ascii.eqb ch "+")) r in
      if List.forallb isPrereleaseIdentifier (Js.split "." pre) then
        match r' with
        | EmptyString =>
            Some {| m1 := a; m2 := b; m3 := c; m4 := Some pre; m5 := None |}
        | String _ bld =>
            if List.forallb isBuildIdentifier (Js.split "." bld) then
              Some {| m1 := a; m2 := b; m3 := c; m4 := Some pre; m5 := Some bld |}
            else None
        end
      else None
  | String "+" bld =>
      if List.forallb isBuildIdentifier (Js.split "." bld) then
        Some {| m1 := a; m2 := b; m3 := c; m4 := None; m5 := Some bld |}
      else None
  | String _ _ => None
  end.

(** [s.match(re[t.FULL])] with
    [FULL = ^v?(NUM)\.(NUM)\.(NUM)(?:-(PRE))?(?:\+(BUILD))?$]. *)
Definition matchFULL (s : string) : option FullMatch :=
  let s0 := match s with String "v" r => r | _ => s end in
  let (a, r1) := Js.span Js.isDigit s0 in
  match r1 with
  | String "." r1' =>
      let (b, r2) := Js.span Js.isDigit r1' in
      match r2 with
      | String "." r2' =>
          let (c, r3) := Js.span Js.isDigit r2' in
          if isNumericIdentifier a && isNumericIdentifier b && isNumericIdentifier c
          then matchSuffix a b c r3
          else None
      | _ => None
      end
  | _ => None
  end.

(** The callback that turns numeric prerelease identifiers into numbers. *)
Definition numberify (id : string) : Identifier :=
  if isNumeric id then
    let num := Js.toNumber id in
    if num <? MAX_SAFE_INTEGER then IdNum num else IdStr id
  else IdStr id.

(** [new SemVer(version)] for a string [version]. *)
Definition new_SemVer (version : string) : result SemVer :=
  if (MAX_LENGTH <? String.length version)%nat then
    Throw (TypeError "version is longer than 256 characters")
  else
    match matchFULL (Js.trim version) with
    | None => Throw (TypeError ("Invalid Version: " ++ version))
    | Some m =>
        let major := Js.toNumber (m1 m) in
        let minor := Js.toNumber (m2 m) in
        let patch := Js.toNumber (m3 m) in
        if MAX_SAFE_INTEGER <? major then
          Throw (TypeError "Invalid major version")
        else if MAX_SAFE_INTEGER <? minor then
          Throw (TypeError "Invalid minor version")
        else if MAX_SAFE_INTEGER <? patch then
          Throw (TypeError "Invalid patch version")
        else
          Ok {| raw := version;
                major := major; minor := minor; patch := patch;
                prerelease :=
                  match m4 m with
                  | None => []
                  | Some pre => map numberify (Js.split "." pre)
                  end;
                build :=
                  match m5 m with
                  | None => []
                  | Some bld => Js.split "." bld
                  end |}
    end.

Definition idToString (i : Identifier) : string :=
  match i with
  | IdNum n => Js.ofNumber n
  | IdStr s => s
  end.

(** [format()]: the value of the [version] field. *)
Definition format (v : SemVer) : string :=
  let version :=
    Js.ofNumber (major v) ++ "." ++ Js.ofNumber (minor v) ++ "."
    ++ Js.ofNumber (patch v) in
  match prerelease v with
  | [] => version
  | _ :: _ => version ++ "-" ++ Js.join "." (map idToString (prerelease v))
  end.

(** [parse(version)]: the constructor with its exception turned into
    [null]. *)
Definition parse (version : string) : option SemVer :=
  match new_SemVer version with
  | Ok v => Some v
  | Throw _ => None
  end.

(** *** Comparison *)

Definition idIsNumeric (i : Identifier) : bool :=
  match i with
  | IdNum _ => true
  | IdStr s => isNumeric s
  end.

(** [+a]: a number is itself, a string of digits becomes the nearest
    double. *)
Definition idNumber (i : Identifier) : N :=
  match i with
  | IdNum n => n
  | IdStr s => Js.toDouble (Js.toNumber s)
  end.

(** [a === b] on identifiers. *)
Definition strictEq (a b : Identifier) : bool :=
  match a, b with
  | IdNum n, IdNum m => n =? m
  | IdStr s, IdStr t => String.eqb s t
  | _, _ => false
  end.

(** [a < b] on identifiers: numbers by value, strings by code units. *)
Definition lessThan (a b : Identifier) : bool :=
  match a, b with
  | IdStr s, IdStr t => String.ltb s t
  | _, _ => idIsNumeric a && idIsNumeric b && (idNumber a <? idNumber b)
  end.

(** [compareIdentifiers(a, b)] *)
Definition compareIdentifiers (a b : Identifier) : Z :=
  let anum := idIsNumeric a in
  let bnum := idIsNumeric b in
  let a' := if anum && bnum then IdNum (idNumber a) else a in
  let b' := if anum && bnum then IdNum (idNumber b) else b in
  if strictEq a' b' then 0%Z
  else if anum && negb bnum then (-1)%Z
  else if bnum && negb anum then 1%Z
  else if lessThan a' b' then (-1)%Z
  else 1%Z.

(** [x || y] on numbers: [y] when [x] is zero. *)
Definition orElse (x y : Z) : Z := if (x =? 0)%Z then y else x.

(** [this.compareMain(other)] *)
Definition compareMain (this other : SemVer) : Z :=
  orElse (compareIdentifiers (IdNum (major this)) (IdNum (major other)))
    (orElse (compareIdentifiers (IdNum (minor this)) (IdNum (minor other)))
       (compareIdentifiers (IdNum (patch this)) (IdNum (patch other)))).

(** The [do ... while (++i)] loop of [comparePre]. *)
Fixpoint comparePre_loop (p q : list Identifier) : Z :=
  match p, q with
  | [], [] => 0%Z
  | _ :: _, [] => 1%Z
  | [], _ :: _ => (-1)%Z
  | a :: p', b :: q' =>
      if strictEq a b then comparePre_loop p' q'
      else compareIdentifiers a b
  end.

(** [this.comparePre(other)] *)
Definition comparePre (this other : SemVer) : Z :=
  match prerelease this, prerelease other with
  | _ :: _, [] => (-1)%Z
  | [], _ :: _ => 1%Z
  | [], [] => 0%Z
  | p, q => comparePre_loop p q
  end.

(** [a.compare(b)], which is also [semver.compare(a, b)] on two [SemVer]
    objects. *)
Definition compare (a b : SemVer) : Z :=
  if String.eqb (format b) (format a) then 0%Z
  else orElse (compareMain a b) (comparePre a b).

(** *** Increment *)

(** [this.inc(release)] for the three plain release types; the object is
    updated in place and returned, here the updated record. *)
Definition inc (this : SemVer) (release : ReleaseType.t) : SemVer :=
  let noPre := match prerelease this with [] => true | _ :: _ => false end in
  let bumped :=
    match release with
    | ReleaseType.major =>
        {| raw := raw this;
           major := if negb (minor this =? 0) || negb (patch this =? 0) || noPre
                    then major this + 1 else major this;
           minor := 0; patch := 0;
           prerelease := []; build := build this |}
    | ReleaseType.minor =>
        {| raw := raw this;
           major := major this;
           minor := if negb (patch this =? 0) || noPre
                    then minor this + 1 else minor this;
           patch := 0;
           prerelease := []; build := build this |}
    | ReleaseType.patch =>
        {| raw := raw this;
           major := major this; minor := minor this;
           patch := if noPre then patch this + 1 else patch this;
           prerelease := []; build := build this |}
    end in
  {| raw := match build bumped with
            | [] => format bumped
            | _ :: _ => format bumped ++ "+" ++ Js.join "." (build bumped)
            end;
     major := major bumped; minor := minor bumped; patch := patch bumped;
     prerelease := prerelease bumped; build := build bumped |}.

(** *** Coercion *)

(** An optional group [(?:\.(\d{1,16}))?]: the component and the rest when
    the group matches. *)
Definition coerceComponent (s : string) : option (string * string) :=
  match s with
  | String "." s' =>
      let (d, rest) := Js.span Js.isDigit s' in
      if nonEmpty d && (String.length d <=? MAX_SAFE_COMPONENT_LENGTH)%nat
      then Some (d, rest) else None
  | _ => None
  end.

(** [COERCE = (^|[^\d])(\d{1,16})(?:\.(\d{1,16}))?(?:\.(\d{1,16}))?(?:$|[^\d])]
    tried where a run of digits begins.  A run longer than 16 digits cannot
    be delimited on both sides, so the attempt fails there; a group that
    cannot take its whole run is skipped. *)
Definition coerce_here (s : string) : option (string * option string * option string) :=
  let (d, r) := Js.span Js.isDigit s in
  if nonEmpty d && (String.length d <=? MAX_SAFE_COMPONENT_LENGTH)%nat then
    match coerceComponent r with
    | Some (c3, r') =>
        match coerceComponent r' with
        | Some (c4, _) => Some (d, Some c3, Some c4)
        | None => Some (d, Some c3, None)
        end
    | None => Some (d, None, None)
    end
  else None.

(** The leftmost match of [COERCE]; [boundary] tells whether the previous
    character is the start of the string or a non-digit. *)
Fixpoint coerce_scan (boundary : bool) (s : string)
  : option (string * option string * option string) :=
  match s with
  | EmptyString => None
  | String c s' =>
      if Js.isDigit c then
        if boundary then
          match coerce_here s with
          | Some m => Some m
          | None => coerce_scan false s'
          end
        else coerce_scan false s'
      else coerce_scan true s'
  end.

Definition orZero (o : option string) : string :=
  match o with Some s => s | None => "0" end.

(** [semver.coerce(version)] for a string [version], default options. *)
Definition coerce (version : string) : option SemVer :=
  match coerce_scan true version with
  | None => None
  | Some (c2, c3, c4) => parse (c2 ++ "." ++ orZero c3 ++ "." ++ orZero c4)
  end.

End semver.

(* ------------------------------------------------------------------ *)
(** ** The host: [@actions/core], [@actions/github], [process.env] *)

(** What the action reports to the workflow runner. *)
Inductive HostEvent : Type :=
| SetOutput (name value : string)
| SetFailed (error : JsError).

(** What the run reads from its surroundings: action inputs
    ([core.getInput], the empty string when an input is not set), the
    environment variable [GITHUB_REPOSITORY], the answer of the REST API to a
    paginated route (the [name] of every item, or a rejected promise), and
    [github.context.payload.head_commit?.message]. *)
Record Env : Type := {
  getInput : string -> string;
  GITHUB_REPOSITORY : option string;
  paginate : string -> result (option (list string));
  head_commit_message : option string
}.

(** Computations that emit host events and may throw. *)
Definition Host (A : Type) : Type :=
  list HostEvent -> result A * list HostEvent.

Definition hbind {A B} (m : Host A) (k : A -> Host B) : Host B :=
  fun log =>
    match m log with
    | (Ok a, log') => k a log'
    | (Throw e, log') => (Throw e, log')
    end.

Notation "x <~ m ;; k" := (hbind m (fun x => k))
  (at level 61, m at next level, right associativity).

Definition lift {A} (r : result A) : Host A := fun log => (r, log).

Definition setOutput (name value : string) : Host unit :=
  fun log => (Ok tt, (log ++ [SetOutput name value])%list).

Definition setFailed (error : JsError) : Host unit :=
  fun log => (Ok tt, (log ++ [SetFailed error])%list).

(** [try { body } catch (error) { if (error instanceof Error) handler }];
    every exception of the embedding is an [Error] instance. *)
Definition try_catch (body : Host unit) (handler : JsError -> Host unit)
  : Host unit :=
  fun log =>
    match body log with
    | (Ok _, log') => (Ok tt, log')
    | (Throw e, log') => handler e log'
    end.

(** The client returned by [github.getOctokit]. *)
Record Octokit : Type := { auth : string }.

(** [github.getOctokit(token)]: an empty token is refused. *)
Definition getOctokit (token : string) : result Octokit :=
  match token with
  | EmptyString => Throw (Error "Parameter token or opts.auth is required")
  | String _ _ => Ok {| auth := "token " ++ token |}
  end.

(* ------------------------------------------------------------------ *)
(** ** [src/main.ts] *)

Record Version : Type := {
  raw : string;
  semver : semver.SemVer
}.

(** The constructor of [Version]. *)
Definition new_Version (raw : string) : result Version :=
  let versionMatch := VersionRegex.exec raw in
  match versionMatch with
  | Some m =>
      sv <- semver.new_SemVer m ;;
      Ok {| raw := raw; semver := sv |}
  | None =>
      sv <- semver.new_SemVer "0.0.0" ;;
      Ok {| raw := raw; semver := sv |}
  end.

Record Repository : Type := {
  name : string;
  owner : string
}.

(** The constructor of [Repository]. *)
Definition new_Repository (env : Env) : Repository :=
  let tmp :=
    match GITHUB_REPOSITORY env with
    | Some s => Js.split "/" s
    | None => []
    end in
  {| name := nth 1 tmp EmptyString; owner := nth 0 tmp EmptyString |}.

Definition getOctokitClient (githubToken : string) : result Octokit :=
  getOctokit githubToken.

Definition orEmpty {A} (o : option (list A)) : list A :=
  match o with Some l => l | None => [] end.

Definition getVersionsFromTags (env : Env) (octokit : Octokit)
  : result (list Version) :=
  let repo := new_Repository env in
  res <- paginate env
           ("GET /repos/" ++ owner repo ++ "/" ++ name repo ++ "/tags") ;;
  mapM new_Version (orEmpty res).

Definition getVersionsFromReleases (env : Env) (octokit : Octokit)
  : result (list Version) :=
  let repo := new_Repository env in
  res <- paginate env
           ("GET /repos/" ++ owner repo ++ "/" ++ name repo ++ "/releases") ;;
  mapM new_Version (orEmpty res).

(** The callback of [versions.filter] in [filterAndSortVersions]. *)
Definition filterCheck (prefix : string) (includePrereleases : bool)
  (version : Version) : bool :=
  let check :=
    match semver.coerce (raw version) with Some _ => true | None => false end in
  let check :=
    if negb includePrereleases
       && (negb (length (semver.build (semver version)) =? 0)%nat
           || negb (length (semver.prerelease (semver version)) =? 0)%nat)
    then false else check in
  check && Js.startsWith (raw version) prefix.

Definition filterAndSortVersions (versions : list Version) (prefix : string)
  (includePrereleases : bool) : list Version :=
  let filteredVersions := filter (filterCheck prefix includePrereleases) versions in
  let sortedVersions :=
    Js.sort (fun x y => semver.compare (semver y) (semver x)) filteredVersions in
  sortedVersions.

Definition bumpVersion (version : Version) (incrementLevel : ReleaseType.t)
  : result Version :=
  tmp <- new_Version (semver.raw (semver version)) ;;
  new_Version (semver.raw (semver.inc (semver tmp) incrementLevel)).

Definition getIncrementLevelFromTitle (title : string) : ReleaseType.t :=
  if Js.includes title "(MAJOR)" then ReleaseType.major
  else if Js.includes title "(MINOR)" then ReleaseType.minor
  else if Js.includes title "(PATCH)" then ReleaseType.patch
  else ReleaseType.patch.

Definition run (env : Env) : Host unit :=
  try_catch
    (let githubToken := getInput env "token" in
     let prefix := getInput env "prefix" in
     let source := getInput env "source" in
     let includePrereleases :=
       String.eqb (getInput env "includePrereleases") "true" in
     octokit <~ lift (getOctokitClient githubToken) ;;
     allVersions <~
       lift (if String.eqb source "tags" then getVersionsFromTags env octokit
             else if String.eqb source "releases" then
               getVersionsFromReleases env octokit
             else
               Throw (Error (source ++ " is not a valid value for "
                             ++ Js.dquote ++ "source" ++ Js.dquote))) ;;
     let filteredAndSortedVersions :=
       filterAndSortVersions allVersions prefix includePrereleases in
     currentVersion <~
       lift (match filteredAndSortedVersions with
             | v :: _ => Ok v
             | [] => new_Version "0.0.0"
             end) ;;
     let title :=
       match head_commit_message env with
       | Some m => m
       | None => EmptyString
       end in
     let incrementLevel := getIncrementLevelFromTitle title in
     nextVersion <~ lift (bumpVersion currentVersion incrementLevel) ;;
     _ <~ setOutput "currentVersion" (semver.raw (semver currentVersion)) ;;
     setOutput "nextVersion" (semver.raw (semver nextVersion)))
    (fun error => setFailed error).

(** The events of one run of the action, in call order. *)
Definition events (env : Env) : list HostEvent := snd (run env []).

(* ================================================================== *)
(** * Vocabulary of the properties *)

(** [startsOutside p s]: [s] is empty or its first character is not in the
    class [p]. *)
Definition startsOutside (p : ascii -> bool) (s : string) : bool :=
  match s with
  | EmptyString => true
  | String c _ => negb (p c)
  end.

(** [Contains t s]: [t] occurs in [s] as a substring. *)
Definition Contains (t s : string) : Prop :=
  exists pre post, s = pre ++ t ++ post.

(** The text [d1.d2.d3]. *)
Definition mainOf (d1 d2 d3 : string) : string :=
  d1 ++ "." ++ d2 ++ "." ++ d3.

(** [m] is matched by [\d+\.\d+\.\d+]. *)
Definition Matches (m : string) : Prop :=
  exists d1 d2 d3,
    m = mainOf d1 d2 d3
    /\ semver.isNumeric d1 = true
    /\ semver.isNumeric d2 = true
    /\ semver.isNumeric d3 = true.

(** [raw] splits as [pre ++ m ++ post] with [m] a match. *)
Definition MatchAt (raw pre m post : string) : Prop :=
  raw = pre ++ m ++ post /\ Matches m.

(** [m] is what [String.prototype.match] reports: the match that starts
    leftmost, and among those the one the greedy quantifiers make longest. *)
Definition FirstMatch (raw pre m post : string) : Prop :=
  MatchAt raw pre m post
  /\ forall pre' m' post',
       MatchAt raw pre' m' post' ->
       (String.length pre <= String.length pre')%nat
       /\ (String.length pre' = String.length pre ->
           String.length m' <= String.length m)%nat.

(** A decidable certificate for [FirstMatch]: no start position inside
    [pre] matches, and the match at the end of [pre] is exactly [m]. *)
Fixpoint noEarlier (pre rest : string) : bool :=
  match pre with
  | EmptyString => true
  | String _ pre' =>
      match VersionRegex.match_here (pre ++ rest) with
      | None => noEarlier pre' rest
      | Some _ => false
      end
  end.

(** The semantic version [0.0.0] as the constructor builds it. *)
Definition zeroSemVer : semver.SemVer :=
  {| semver.raw := "0.0.0";
     semver.major := 0; semver.minor := 0; semver.patch := 0;
     semver.prerelease := []; semver.build := [] |}.

(** The plain semantic version [a.b.c] built from the text [d1.d2.d3]. *)
Definition plainSemVer (d1 d2 d3 : string) : semver.SemVer :=
  {| semver.raw := mainOf d1 d2 d3;
     semver.major := Js.toNumber d1;
     semver.minor := Js.toNumber d2;
     semver.patch := Js.toNumber d3;
     semver.prerelease := [];
     semver.build := [] |}.

(** A [Version] is well formed when its semantic version is a [SemVer]
    object, that is, the [SemVer] constructor built it from some text. *)
Definition WellFormed (v : Version) : Prop :=
  exists text, semver.new_SemVer text = Ok (semver v).

(** A [Version] that the [Version] constructor built from some label. *)
Definition Constructed (v : Version) : Prop :=
  exists label, new_Version label = Ok v.

(** The component that a release type increments. *)
Definition component (level : ReleaseType.t) (sv : semver.SemVer) : N :=
  match level with
  | ReleaseType.major => semver.major sv
  | ReleaseType.minor => semver.minor sv
  | ReleaseType.patch => semver.patch sv
  end.

(** The standard increment of [major.minor.patch]. *)
Definition bumped (level : ReleaseType.t) (sv : semver.SemVer) : N * N * N :=
  match level with
  | ReleaseType.major => (semver.major sv + 1, 0, 0)
  | ReleaseType.minor => (semver.major sv, semver.minor sv + 1, 0)
  | ReleaseType.patch => (semver.major sv, semver.minor sv, semver.patch sv + 1)
  end.

(** The numbers [(major, minor, patch)] of a semantic version. *)
Definition triple (sv : semver.SemVer) : N * N * N :=
  (semver.major sv, semver.minor sv, semver.patch sv).

(** [(a1, a2, a3)] is at most [(b1, b2, b3)] in the lexicographic order. *)
Definition lexLe (s t : N * N * N) : Prop :=
  let '(a1, a2, a3) := s in
  let '(b1, b2, b3) := t in
  a1 < b1 \/ (a1 = b1 /\ (a2 < b2 \/ (a2 = b2 /\ a3 <= b3))).

(** The [Version] that the constructor builds from the text [a.b.c]. *)
Definition canonicalVersion (t : N * N * N) : Version :=
  let '(a, b, c) := t in
  let text := mainOf (Js.ofNumber a) (Js.ofNumber b) (Js.ofNumber c) in
  {| raw := text;
     semver := {| semver.raw := text;
                  semver.major := a; semver.minor := b; semver.patch := c;
                  semver.prerelease := []; semver.build := [] |} |}.

(** A host for the scenarios: a token is present, the repository is
    [octo/repo], and both routes answer with the same list of names. *)
Definition scenarioEnv (source prefix includePrereleases : string)
  (labels : list string) (message : option string) : Env :=
  {| getInput := fun name =>
       if String.eqb name "token" then "ghs_token"
       else if String.eqb name "prefix" then prefix
       else if String.eqb name "source" then source
       else if String.eqb name "includePrereleases" then includePrereleases
       else EmptyString;
     GITHUB_REPOSITORY := Some "octo/repo";
     paginate := fun route =>
       if String.eqb route "GET /repos/octo/repo/tags"
          || String.eqb route "GET /repos/octo/repo/releases"
       then Ok (Some labels)
       else Throw (Error "Not Found");
     head_commit_message := message |}.

(** The text the increment level is read from. *)
Definition titleOf (env : Env) : string :=
  match head_commit_message env with
  | Some m => m
  | None => EmptyString
  end.

(** The versions the run retrieves, when the source is a valid one. *)
Definition retrieved (env : Env) (versions : list Version) : Prop :=
  (getInput env "source" = "tags"
   /\ getVersionsFromTags env {| auth := "token " ++ getInput env "token" |}
      = Ok versions)
  \/ (getInput env "source" = "releases"
      /\ getVersionsFromReleases env
           {| auth := "token " ++ getInput env "token" |}
         = Ok versions).

(** The text carries none of the three markers. *)
Definition NoMarker (title : string) : Prop :=
  ~ Contains "(MAJOR)" title
  /\ ~ Contains "(MINOR)" title
  /\ ~ Contains "(PATCH)" title.

(** [x] may stand immediately before [y] in an array sorted with
    [comparefn]. *)
Definition inOrder {A} (comparefn : A -> A -> Z) (x y : A) : Prop :=
  (comparefn x y <= 0)%Z.

(** ** Vocabulary of the further properties *)

(** A character of a main version: a digit or a dot. *)
Definition isMainChar (c : ascii) : bool := Js.isDigit c || Ascii.eqb c ".".

(** The error of the [SemVer] constructor for a component out of range. *)
Definition invalidComponent (level : ReleaseType.t) : JsError :=
  match level with
  | ReleaseType.major => TypeError "Invalid major version"
  | ReleaseType.minor => TypeError "Invalid minor version"
  | ReleaseType.patch => TypeError "Invalid patch version"
  end.

(** [x] ranks at least as high as [y]: [semver.compare] does not put [y]
    above [x]. *)
Definition ranksAtLeast (x y : Version) : Prop :=
  (semver.compare (semver y) (semver x) <= 0)%Z.

(** The comparator that [filterAndSortVersions] hands to [sort]. *)
Definition descending (x y : Version) : Z :=
  semver.compare (semver y) (semver x).

(** The route [getVersionsFromTags] asks for. *)
Definition tagsRoute (env : Env) : string :=
  "GET /repos/" ++ owner (new_Repository env) ++ "/"
  ++ name (new_Repository env) ++ "/tags".

(** The route [getVersionsFromReleases] asks for. *)
Definition releasesRoute (env : Env) : string :=
  "GET /repos/" ++ owner (new_Repository env) ++ "/"
  ++ name (new_Repository env) ++ "/releases".

(** The labels the selected source answers with. *)
Definition fetched (env : Env) (labels : list string) : Prop :=
  exists res,
    orEmpty res = labels
    /\ ((getInput env "source" = "tags"
         /\ paginate env (tagsRoute env) = Ok res)
        \/ (getInput env "source" = "releases"
            /\ paginate env (releasesRoute env) = Ok res)).

(** [s] holds no slash. *)
Definition noSlash (s : string) : bool :=
  Js.forallb (fun c => negb (Ascii.eqb c "/")) s.

(** The versions of the selected source, or the error for a source that
    is neither [tags] nor [releases]. *)
Definition selectVersions (env : Env) (octokit : Octokit)
  : result (list Version) :=
  if String.eqb (getInput env "source") "tags" then
    getVersionsFromTags env octokit
  else if String.eqb (getInput env "source") "releases" then
    getVersionsFromReleases env octokit
  else
    Throw (Error (getInput env "source" ++ " is not a valid value for "
                  ++ Js.dquote ++ "source" ++ Js.dquote)).

(** The part of the run that follows the retrieval. *)
Definition afterRetrieval (env : Env) (allVersions : list Version)
  : Host unit :=
  currentVersion <~
    lift (match filterAndSortVersions allVersions (getInput env "prefix")
                  (String.eqb (getInput env "includePrereleases") "true")
          with
          | v :: _ => Ok v
          | [] => new_Version "0.0.0"
          end) ;;
  nextVersion <~
    lift (bumpVersion currentVersion
            (getIncrementLevelFromTitle (titleOf env))) ;;
  _ <~ setOutput "currentVersion" (semver.raw (semver currentVersion)) ;;
  setOutput "nextVersion" (semver.raw (semver nextVersion)).

(** The order of the levels: patch below minor below major. *)
Definition levelRank (level : ReleaseType.t) : nat :=
  match level with
  | ReleaseType.patch => 0
  | ReleaseType.minor => 1
  | ReleaseType.major => 2
  end.

(* ================================================================== *)
(** * Properties *)

(** ** Strings *)

Section StringFacts.

Lemma append_nil_r (s : string) : s ++ EmptyString = s.
Proof. induction s as [|c s IH]; simpl; [reflexivity | now rewrite IH]. Qed.

Lemma append_assoc (a b c : string) : (a ++ b) ++ c = a ++ (b ++ c).
Proof. induction a as [|x a IH]; simpl; [reflexivity | now rewrite IH]. Qed.

Lemma length_append (a b : string) :
  String.length (a ++ b) = (String.length a + String.length b)%nat.
Proof. induction a as [|x a IH]; simpl; [reflexivity | now rewrite IH]. Qed.

Lemma forallb_append (p : ascii -> bool) (a b : string) :
  Js.forallb p (a ++ b) = Js.forallb p a && Js.forallb p b.
Proof.
  induction a as [|x a IH]; simpl; [reflexivity|].
  now rewrite IH, andb_assoc.
Qed.

Lemma span_append (p : ascii -> bool) (a b : string) :
  Js.forallb p a = true -> startsOutside p b = true ->
  Js.span p (a ++ b) = (a, b).
Proof.
  induction a as [|x a IH]; simpl; intros Ha Hb.
  - destruct b as [|c b]; simpl in *; [reflexivity|].
    apply negb_true_iff in Hb. now rewrite Hb.
  - apply andb_true_iff in Ha as [Hx Ha].
    now rewrite Hx, IH.
Qed.

Lemma span_spec (p : ascii -> bool) (s a b : string) :
  Js.span p s = (a, b) ->
  s = a ++ b /\ Js.forallb p a = true /\ startsOutside p b = true.
Proof.
  revert a b. induction s as [|c s IH]; simpl; intros a b H.
  - injection H as <- <-. now repeat split.
  - destruct (p c) eqn:Hc.
    + destruct (Js.span p s) as [a' b'] eqn:Hs.
      injection H as <- <-.
      destruct (IH a' b' eq_refl) as (-> & Ha & Hb).
      simpl. rewrite Hc, Ha. now repeat split.
    + injection H as <- <-. simpl. rewrite Hc. now repeat split.
Qed.

Lemma dropWhile_outside (p : ascii -> bool) (s : string) :
  startsOutside p s = true -> Js.dropWhile p s = s.
Proof.
  destruct s as [|c s]; simpl; [reflexivity|].
  intros H. apply negb_true_iff in H. now rewrite H.
Qed.

Lemma trimEnd_no_space (s : string) :
  Js.forallb (fun c => negb (Js.isSpace c)) s = true -> Js.trimEnd s = s.
Proof.
  induction s as [|c s IH]; simpl; [reflexivity|].
  intros H. apply andb_true_iff in H as [Hc Hs].
  rewrite (IH Hs). apply negb_true_iff in Hc. rewrite Hc.
  now destruct s.
Qed.

Lemma trim_no_space (s : string) :
  Js.forallb (fun c => negb (Js.isSpace c)) s = true -> Js.trim s = s.
Proof.
  intros H. unfold Js.trim.
  rewrite dropWhile_outside; [now apply trimEnd_no_space|].
  destruct s as [|c s]; simpl in *; [reflexivity|].
  now apply andb_true_iff in H as [Hc _].
Qed.

Lemma forallb_impl (p q : ascii -> bool) (s : string) :
  (forall c, p c = true -> q c = true) ->
  Js.forallb p s = true -> Js.forallb q s = true.
Proof.
  intros Hpq. induction s as [|c s IH]; simpl; [reflexivity|].
  intros H. apply andb_true_iff in H as [Hc Hs].
  now rewrite (Hpq c Hc), IH.
Qed.

Lemma prefix_spec (t s : string) :
  String.prefix t s = true <-> exists post, s = t ++ post.
Proof.
  revert s. induction t as [|c t IH]; intros s; simpl.
  - split; [intros _; now exists s | intros _; now destruct s].
  - destruct s as [|d s].
    + split; [discriminate | intros [post H]; discriminate].
    + simpl. destruct (ascii_dec c d) as [e|Hcd].
      * subst d. rewrite IH. split; intros [post H]; exists post.
        -- now rewrite H.
        -- now injection H.
      * split; [discriminate|].
        intros [post H]. injection H as H _. now symmetry in H.
Qed.

Lemma includes_eq (s t : string) :
  Js.includes s t =
  String.prefix t s
  || match s with
     | EmptyString => false
     | String _ s' => Js.includes s' t
     end.
Proof. now destruct s. Qed.

Lemma includes_spec (s t : string) :
  Js.includes s t = true <-> Contains t s.
Proof.
  unfold Contains. induction s as [|c s IH]; rewrite includes_eq.
  - rewrite orb_false_r, prefix_spec. split.
    + intros [post H]. now exists EmptyString, post.
    + intros (pre & post & H). destruct pre; [now exists post|discriminate].
  - rewrite orb_true_iff, prefix_spec, IH. split.
    + intros [[post H] | (pre & post & H)].
      * now exists EmptyString, post.
      * exists (String c pre), post. simpl. now rewrite H.
    + intros (pre & post & H). destruct pre as [|d pre]; simpl in H.
      * left. now exists post.
      * right. injection H as _ H. now exists pre, post.
Qed.

End StringFacts.

(** ** Decimal numerals *)

Section Numerals.

Lemma string_of_uint_digits (d : Decimal.uint) :
  Js.forallb Js.isDigit (NilEmpty.string_of_uint d) = true.
Proof. induction d; simpl; auto. Qed.

Lemma toNumber_acc_pos (d : Decimal.uint) (p : positive) :
  Js.toNumber_acc (Npos p) (NilEmpty.string_of_uint d)
  = Npos (Pos.of_uint_acc d p).
Proof.
  revert p. induction d; intros p; cbn [NilEmpty.string_of_uint Js.toNumber_acc Pos.of_uint_acc];
    [reflexivity | ..];
    match goal with
    | |- Js.toNumber_acc ?acc _ = N.pos (Pos.of_uint_acc _ ?q) =>
        replace acc with (N.pos q); [apply IHd|]
    end;
    unfold Js.code; cbn [N_of_ascii N_of_digits]; lia.
Qed.

Lemma toNumber_string_of_uint (d : Decimal.uint) :
  Js.toNumber (NilEmpty.string_of_uint d) = N.of_uint d.
Proof.
  unfold Js.toNumber, N.of_uint.
  induction d; cbn [NilEmpty.string_of_uint Js.toNumber_acc Pos.of_uint];
    [reflexivity | exact IHd | ..];
    match goal with
    | |- Js.toNumber_acc _ _ = N.pos (Pos.of_uint_acc _ ?q) =>
        rewrite <- toNumber_acc_pos; f_equal
    end.
Qed.

Lemma to_uint_normal (n : N) : Decimal.unorm (N.to_uint n) = N.to_uint n.
Proof.
  rewrite <- (DecimalN.Unsigned.to_of (N.to_uint n)).
  now rewrite DecimalN.Unsigned.of_to.
Qed.

Lemma to_uint_nonnil (n : N) : N.to_uint n <> Decimal.Nil.
Proof.
  rewrite <- to_uint_normal. apply DecimalFacts.unorm_nonnil.
Qed.

Lemma ofNumber_eq (n : N) :
  Js.ofNumber n = NilEmpty.string_of_uint (N.to_uint n).
Proof.
  unfold Js.ofNumber, NilZero.string_of_uint.
  destruct (N.to_uint n) eqn:E; try reflexivity.
  now destruct (to_uint_nonnil n).
Qed.

Lemma toNumber_ofNumber (n : N) : Js.toNumber (Js.ofNumber n) = n.
Proof.
  rewrite ofNumber_eq, toNumber_string_of_uint.
  apply DecimalN.Unsigned.of_to.
Qed.

Lemma ofNumber_inj (a b : N) : Js.ofNumber a = Js.ofNumber b -> a = b.
Proof.
  intros H. rewrite <- (toNumber_ofNumber a), <- (toNumber_ofNumber b).
  now rewrite H.
Qed.

Lemma ofNumber_numeric (n : N) :
  semver.isNumericIdentifier (Js.ofNumber n) = true.
Proof.
  rewrite ofNumber_eq.
  pose proof (to_uint_normal n) as Hn.
  destruct (N.to_uint n) as [|l|l|l|l|l|l|l|l|l|l] eqn:E;
    try (cbn [NilEmpty.string_of_uint semver.isNumericIdentifier];
         rewrite string_of_uint_digits; reflexivity).
  - now destruct (to_uint_nonnil n).
  - rewrite DecimalFacts.unorm_D0 in Hn.
    unfold Decimal.unorm in Hn.
    destruct (Decimal.nzhead l) eqn:Hl; try discriminate.
    + injection Hn as <-. reflexivity.
    + rewrite <- Hl in Hn. now destruct (DecimalFacts.nzhead_nonzero l l).
Qed.

Lemma toNumber_acc_lower (s : string) (acc : N) :
  acc * 10 ^ N.of_nat (String.length s) <= Js.toNumber_acc acc s.
Proof.
  revert acc. induction s as [|c s IH]; intros acc; cbn [Js.toNumber_acc String.length].
  - cbn. lia.
  - etransitivity; [|apply IH].
    rewrite Nat2N.inj_succ, N.pow_succ_r'. nia.
Qed.

Lemma digit_nonzero (c : ascii) :
  Js.isDigit c = true -> Ascii.eqb c "0" = false -> 1 <= Js.code c - 48.
Proof.
  unfold Js.isDigit, Js.code. intros H H0.
  apply andb_true_iff in H as [H1 H2].
  apply N.leb_le in H1. apply N.leb_le in H2.
  apply Ascii.eqb_neq in H0.
  assert (N_of_ascii c <> 48); [|lia].
  intros E. apply H0. rewrite <- (ascii_N_embedding c), E. reflexivity.
Qed.

Lemma numeric_length (s : string) :
  semver.isNumericIdentifier s = true ->
  Js.toNumber s <= semver.MAX_SAFE_INTEGER ->
  (String.length s <= 16)%nat.
Proof.
  destruct s as [|c s]; [discriminate|].
  cbn [semver.isNumericIdentifier]. intros H Hle.
  apply andb_true_iff in H as [H Hz]. apply andb_true_iff in H as [Hc Hs].
  apply orb_true_iff in Hz as [Hz|Hz].
  - apply negb_true_iff in Hz.
    pose proof (digit_nonzero c Hc Hz) as H1.
    pose proof (toNumber_acc_lower s (10 * 0 + (Js.code c - 48))) as Hlow.
    unfold Js.toNumber in Hle. cbn [Js.toNumber_acc] in Hle.
    cbn [String.length].
    destruct (Nat.le_gt_cases (String.length s) 15) as [|Hbig]; [lia|].
    exfalso.
    assert (10 ^ 16 <= 10 ^ N.of_nat (String.length s)) as Hpow
      by (apply N.pow_le_mono_r; lia).
    unfold semver.MAX_SAFE_INTEGER in Hle.
    assert (10 ^ 16 = 10000000000000000) as E16 by reflexivity.
    nia.
  - destruct s; [cbn; lia | discriminate].
Qed.

Lemma numericIdentifier_numeric (d : string) :
  semver.isNumericIdentifier d = true -> semver.isNumeric d = true.
Proof.
  destruct d as [|c d]; [discriminate|]. unfold semver.isNumeric. cbn.
  intros H. now apply andb_true_iff in H as [H _].
Qed.

End Numerals.

Create HintDb numerals.
#[global] Hint Resolve numericIdentifier_numeric ofNumber_numeric : numerals.

(** ** The [SemVer] constructor on [digits.digits.digits] *)

Section MainVersion.

Lemma isNumeric_inv (d : string) :
  semver.isNumeric d = true ->
  Js.forallb Js.isDigit d = true /\ exists c d', d = String c d' /\ Js.isDigit c = true.
Proof.
  unfold semver.isNumeric. intros H. apply andb_true_iff in H as [Hn Hd].
  split; [exact Hd|]. destruct d as [|c d']; [discriminate|].
  exists c, d'. split; [reflexivity|].
  simpl in Hd. now apply andb_true_iff in Hd as [Hc _].
Qed.

Lemma digit_not_space (c : ascii) :
  Js.isDigit c = true -> negb (Js.isSpace c) = true.
Proof.
  unfold Js.isDigit, Js.isSpace. intros H.
  apply andb_true_iff in H as [H1 H2].
  apply N.leb_le in H1. apply N.leb_le in H2.
  apply negb_true_iff.
  repeat (apply orb_false_iff; split);
    try (apply andb_false_iff; right; apply N.leb_gt; lia);
    apply N.eqb_neq; lia.
Qed.

Lemma mainOf_no_space (d1 d2 d3 : string) :
  Js.forallb Js.isDigit d1 = true ->
  Js.forallb Js.isDigit d2 = true ->
  Js.forallb Js.isDigit d3 = true ->
  Js.forallb (fun c => negb (Js.isSpace c)) (mainOf d1 d2 d3) = true.
Proof.
  intros H1 H2 H3. unfold mainOf.
  rewrite !forallb_append. cbn [Js.forallb].
  rewrite !(forallb_impl _ _ _ digit_not_space) by assumption.
  reflexivity.
Qed.

Lemma digit_first_not_v (c : ascii) (r : string) :
  Js.isDigit c = true ->
  match String c r with
  | String "v" r' => r'
  | _ => String c r
  end = String c r.
Proof.
  destruct c as [[] [] [] [] [] [] [] []]; intros H;
    first [reflexivity | discriminate H].
Qed.

Lemma matchFULL_main (d1 d2 d3 : string) :
  semver.isNumeric d1 = true ->
  semver.isNumeric d2 = true ->
  semver.isNumeric d3 = true ->
  semver.matchFULL (mainOf d1 d2 d3) =
  if semver.isNumericIdentifier d1 && semver.isNumericIdentifier d2
     && semver.isNumericIdentifier d3
  then Some {| semver.m1 := d1; semver.m2 := d2; semver.m3 := d3;
               semver.m4 := None; semver.m5 := None |}
  else None.
Proof.
  intros H1 H2 H3.
  destruct (isNumeric_inv _ H1) as (F1 & c1 & t1 & E1 & C1).
  destruct (isNumeric_inv _ H2) as (F2 & _).
  destruct (isNumeric_inv _ H3) as (F3 & _).
  unfold semver.matchFULL.
  replace (match mainOf d1 d2 d3 with
           | String "v" r => r
           | _ => mainOf d1 d2 d3
           end) with (mainOf d1 d2 d3).
  2:{ unfold mainOf. rewrite E1. cbn [String.append].
      symmetry. now apply digit_first_not_v. }
  unfold mainOf.
  rewrite (span_append Js.isDigit d1) by (assumption || reflexivity).
  cbn [String.append].
  rewrite (span_append Js.isDigit d2) by (assumption || reflexivity).
  cbn [String.append].
  rewrite <- (append_nil_r d3) at 1.
  rewrite (span_append Js.isDigit d3) by (assumption || reflexivity).
  reflexivity.
Qed.

(** The constructor on [d1.d2.d3], case by case. *)
Lemma new_SemVer_main (d1 d2 d3 : string) :
  semver.isNumeric d1 = true ->
  semver.isNumeric d2 = true ->
  semver.isNumeric d3 = true ->
  semver.new_SemVer (mainOf d1 d2 d3) =
  if (semver.MAX_LENGTH <? String.length (mainOf d1 d2 d3))%nat then
    Throw (TypeError "version is longer than 256 characters")
  else if semver.isNumericIdentifier d1 && semver.isNumericIdentifier d2
          && semver.isNumericIdentifier d3 then
    if semver.MAX_SAFE_INTEGER <? Js.toNumber d1 then
      Throw (TypeError "Invalid major version")
    else if semver.MAX_SAFE_INTEGER <? Js.toNumber d2 then
      Throw (TypeError "Invalid minor version")
    else if semver.MAX_SAFE_INTEGER <? Js.toNumber d3 then
      Throw (TypeError "Invalid patch version")
    else
      Ok {| semver.raw := mainOf d1 d2 d3;
            semver.major := Js.toNumber d1;
            semver.minor := Js.toNumber d2;
            semver.patch := Js.toNumber d3;
            semver.prerelease := [];
            semver.build := [] |}
  else Throw (TypeError ("Invalid Version: " ++ mainOf d1 d2 d3)).
Proof.
  intros H1 H2 H3. unfold semver.new_SemVer.
  destruct (semver.MAX_LENGTH <? String.length (mainOf d1 d2 d3))%nat;
    [reflexivity|].
  rewrite trim_no_space.
  2:{ apply mainOf_no_space; now apply isNumeric_inv. }
  rewrite matchFULL_main by assumption.
  destruct (semver.isNumericIdentifier d1 && semver.isNumericIdentifier d2
            && semver.isNumericIdentifier d3); reflexivity.
Qed.

(** Whatever the constructor accepts of the form [d1.d2.d3] carries neither
    prerelease identifiers nor build metadata. *)
Lemma new_SemVer_main_plain (d1 d2 d3 : string) (sv : semver.SemVer) :
  semver.isNumeric d1 = true ->
  semver.isNumeric d2 = true ->
  semver.isNumeric d3 = true ->
  semver.new_SemVer (mainOf d1 d2 d3) = Ok sv ->
  sv = {| semver.raw := mainOf d1 d2 d3;
          semver.major := Js.toNumber d1;
          semver.minor := Js.toNumber d2;
          semver.patch := Js.toNumber d3;
          semver.prerelease := [];
          semver.build := [] |}
  /\ semver.isNumericIdentifier d1 = true
  /\ semver.isNumericIdentifier d2 = true
  /\ semver.isNumericIdentifier d3 = true
  /\ Js.toNumber d1 <= semver.MAX_SAFE_INTEGER
  /\ Js.toNumber d2 <= semver.MAX_SAFE_INTEGER
  /\ Js.toNumber d3 <= semver.MAX_SAFE_INTEGER.
Proof.
  intros H1 H2 H3. rewrite new_SemVer_main by assumption.
  destruct (semver.MAX_LENGTH <? String.length (mainOf d1 d2 d3))%nat;
    [discriminate|].
  destruct (semver.isNumericIdentifier d1) eqn:N1; [|discriminate].
  destruct (semver.isNumericIdentifier d2) eqn:N2; [|discriminate].
  destruct (semver.isNumericIdentifier d3) eqn:N3; [|discriminate].
  cbn [andb].
  destruct (semver.MAX_SAFE_INTEGER <? Js.toNumber d1) eqn:L1; [discriminate|].
  destruct (semver.MAX_SAFE_INTEGER <? Js.toNumber d2) eqn:L2; [discriminate|].
  destruct (semver.MAX_SAFE_INTEGER <? Js.toNumber d3) eqn:L3; [discriminate|].
  intros H. injection H as <-.
  apply N.ltb_ge in L1, L2, L3. now repeat split.
Qed.

(** A canonical triple below the bound is accepted. *)
Lemma new_SemVer_canonical (d1 d2 d3 : string) :
  semver.isNumericIdentifier d1 = true ->
  semver.isNumericIdentifier d2 = true ->
  semver.isNumericIdentifier d3 = true ->
  Js.toNumber d1 <= semver.MAX_SAFE_INTEGER ->
  Js.toNumber d2 <= semver.MAX_SAFE_INTEGER ->
  Js.toNumber d3 <= semver.MAX_SAFE_INTEGER ->
  semver.new_SemVer (mainOf d1 d2 d3) =
  Ok {| semver.raw := mainOf d1 d2 d3;
        semver.major := Js.toNumber d1;
        semver.minor := Js.toNumber d2;
        semver.patch := Js.toNumber d3;
        semver.prerelease := [];
        semver.build := [] |}.
Proof.
  intros N1 N2 N3 L1 L2 L3.
  rewrite new_SemVer_main by auto with numerals.
  pose proof (numeric_length _ N1 L1). pose proof (numeric_length _ N2 L2).
  pose proof (numeric_length _ N3 L3).
  replace (semver.MAX_LENGTH <? String.length (mainOf d1 d2 d3))%nat with false.
  2:{ symmetry. apply Nat.ltb_ge. unfold mainOf, semver.MAX_LENGTH.
      rewrite !length_append. cbn [String.length]. lia. }
  rewrite N1, N2, N3. cbn [andb].
  apply N.ltb_ge in L1, L2, L3. now rewrite L1, L2, L3.
Qed.

End MainVersion.
(** ** The regular expression [/(\d+\.\d+\.\d+)/] *)

Section RegexFacts.

Lemma span_append_gen (p : ascii -> bool) (a b : string) :
  Js.forallb p a = true ->
  Js.span p (a ++ b) = (a ++ fst (Js.span p b), snd (Js.span p b)).
Proof.
  induction a as [|x a IH]; simpl; intros Ha.
  - now destruct (Js.span p b).
  - apply andb_true_iff in Ha as [Hx Ha].
    now rewrite Hx, IH.
Qed.

Lemma match_here_main (d1 d2 d3 post : string) :
  semver.isNumeric d1 = true ->
  semver.isNumeric d2 = true ->
  semver.isNumeric d3 = true ->
  VersionRegex.match_here (mainOf d1 d2 d3 ++ post)
  = Some (mainOf d1 d2 (d3 ++ fst (Js.span Js.isDigit post))).
Proof.
  intros H1 H2 H3.
  destruct (isNumeric_inv _ H1) as (F1 & c1 & t1 & E1 & _).
  destruct (isNumeric_inv _ H2) as (F2 & c2 & t2 & E2 & _).
  destruct (isNumeric_inv _ H3) as (F3 & c3 & t3 & E3 & _).
  unfold VersionRegex.match_here, mainOf.
  rewrite !append_assoc. cbn [String.append].
  rewrite (span_append Js.isDigit d1) by (assumption || reflexivity).
  rewrite E1 at 1.
  rewrite (span_append Js.isDigit d2) by (assumption || reflexivity).
  rewrite E2 at 1.
  rewrite (span_append_gen Js.isDigit d3) by assumption.
  rewrite E3 at 1. cbn [String.append].
  reflexivity.
Qed.

Lemma match_here_Some (s m : string) :
  VersionRegex.match_here s = Some m ->
  exists post, s = m ++ post /\ Matches m
               /\ startsOutside Js.isDigit post = true.
Proof.
  unfold VersionRegex.match_here.
  destruct (Js.span Js.isDigit s) as [d1 r1] eqn:S1.
  destruct d1 as [|c1 t1]; [discriminate|].
  destruct r1 as [|x1 r1']; [discriminate|].
  destruct (Ascii.eqb_spec x1 ".") as [->|Hx1].
  2:{ destruct x1 as [[] [] [] [] [] [] [] []]; discriminate || now destruct Hx1. }
  destruct (Js.span Js.isDigit r1') as [d2 r2] eqn:S2.
  destruct d2 as [|c2 t2]; [discriminate|].
  destruct r2 as [|x2 r2']; [discriminate|].
  destruct (Ascii.eqb_spec x2 ".") as [->|Hx2].
  2:{ destruct x2 as [[] [] [] [] [] [] [] []]; discriminate || now destruct Hx2. }
  destruct (Js.span Js.isDigit r2') as [d3 r3] eqn:S3.
  destruct d3 as [|c3 t3]; [discriminate|].
  intros H. injection H as <-.
  apply span_spec in S1 as (-> & F1 & _).
  apply span_spec in S2 as (-> & F2 & _).
  apply span_spec in S3 as (-> & F3 & O3).
  exists r3. split; [|split; [|exact O3]].
  - repeat (rewrite ?append_assoc; cbn [String.append]). reflexivity.
  - exists (String c1 t1), (String c2 t2), (String c3 t3).
    unfold semver.isNumeric. cbn [semver.nonEmpty andb].
    now rewrite F1, F2, F3.
Qed.

(** A match that starts at the first character makes [match_here] succeed,
    with a result at least as long. *)
Lemma match_here_complete (s m post : string) :
  s = m ++ post -> Matches m ->
  exists m', VersionRegex.match_here s = Some m'
             /\ (String.length m <= String.length m')%nat.
Proof.
  intros -> (d1 & d2 & d3 & -> & H1 & H2 & H3).
  rewrite match_here_main by assumption.
  eexists; split; [reflexivity|].
  unfold mainOf. rewrite !length_append. lia.
Qed.

Lemma match_here_exact (m post : string) :
  Matches m -> startsOutside Js.isDigit post = true ->
  VersionRegex.match_here (m ++ post) = Some m.
Proof.
  intros (d1 & d2 & d3 & -> & H1 & H2 & H3) Hpost.
  rewrite match_here_main by assumption.
  replace (fst (Js.span Js.isDigit post)) with EmptyString.
  - now rewrite append_nil_r.
  - destruct post as [|c post]; [reflexivity|].
    simpl in *. apply negb_true_iff in Hpost. now rewrite Hpost.
Qed.

Lemma exec_eq (raw : string) :
  VersionRegex.exec raw =
  match VersionRegex.match_here raw with
  | Some m => Some m
  | None =>
      match raw with
      | EmptyString => None
      | String _ raw' => VersionRegex.exec raw'
      end
  end.
Proof. now destruct raw. Qed.

Lemma MatchAt_nonempty (raw pre m post : string) :
  MatchAt raw pre m post -> raw <> EmptyString.
Proof.
  intros [-> (d1 & d2 & d3 & -> & H1 & _)] E.
  destruct (isNumeric_inv _ H1) as (_ & c & t & -> & _).
  destruct pre; discriminate.
Qed.

(** [exec] returns the first match. *)
Lemma exec_Some (raw m : string) :
  VersionRegex.exec raw = Some m ->
  exists pre post, FirstMatch raw pre m post.
Proof.
  induction raw as [|x raw IH]; rewrite exec_eq.
  - destruct (VersionRegex.match_here EmptyString) eqn:E; [|discriminate].
    apply match_here_Some in E as (post & E & (d1 & d2 & d3 & -> & H1 & _) & _).
    destruct (isNumeric_inv _ H1) as (_ & c & t & -> & _). discriminate.
  - destruct (VersionRegex.match_here (String x raw)) as [m0|] eqn:E.
    + intros H. injection H as ->.
      pose proof E as E'.
      apply match_here_Some in E as (post & Hraw & Hm & Hpost).
      exists EmptyString, post. split; [now split|].
      intros pre' m' post' [Hraw' Hm']. split; [simpl; lia|].
      intros Hlen. destruct pre'; [|discriminate]. simpl in Hraw'.
      destruct (match_here_complete _ _ _ Hraw' Hm') as (m'' & E'' & Hle).
      rewrite E' in E''. now injection E'' as <-.
    + intros H. destruct (IH H) as (pre & post & [Hraw Hm] & Hfirst).
      exists (String x pre), post. split.
      * split; [simpl; now rewrite <- Hraw | exact Hm].
      * intros pre' m' post' [Hraw' Hm'].
        destruct pre' as [|y pre'].
        -- simpl in Hraw'.
           destruct (match_here_complete _ _ _ Hraw' Hm') as (m'' & E'' & _).
           now rewrite E in E''.
        -- simpl in Hraw'. injection Hraw' as <- Hraw'.
           destruct (Hfirst pre' m' post' (conj Hraw' Hm')) as [Hlm Hlg].
           split; [simpl; lia | intros Hl; apply Hlg; simpl in Hl; lia].
Qed.

(** The first match is what [exec] returns. *)
Lemma exec_FirstMatch (raw pre m post : string) :
  FirstMatch raw pre m post -> VersionRegex.exec raw = Some m.
Proof.
  revert raw. induction pre as [|x pre IH]; intros raw [[Hraw Hm] Hfirst].
  - simpl in Hraw. rewrite exec_eq.
    destruct (match_here_complete _ _ _ Hraw Hm) as (m' & E & Hle).
    rewrite E. f_equal.
    apply match_here_Some in E as (post' & Hraw' & Hm' & _).
    destruct (Hfirst EmptyString m' post' (conj Hraw' Hm')) as [_ Hge].
    specialize (Hge eq_refl).
    assert (String.length m' = String.length m) as Hlen by lia.
    rewrite Hraw in Hraw'. clear - Hraw' Hlen.
    revert m' Hraw' Hlen. induction m as [|c m IHm]; intros [|c' m'] Hraw' Hlen;
      try discriminate; [reflexivity|].
    simpl in Hraw'. injection Hraw' as -> Hraw'.
    f_equal. apply IHm; [exact Hraw' | simpl in Hlen; lia].
  - subst raw. cbn [String.append]. rewrite exec_eq.
    destruct (VersionRegex.match_here (String x (pre ++ m ++ post))) as [m0|] eqn:E.
    + apply match_here_Some in E as (post0 & Hraw0 & Hm0 & _).
      destruct (Hfirst EmptyString m0 post0 (conj Hraw0 Hm0)) as [Hle _].
      simpl in Hle. lia.
    + apply IH. split; [now split|].
      intros pre' m' post' [Hraw' Hm'].
      destruct (Hfirst (String x pre') m' post') as [Hle Hlg].
      { split; [simpl; now rewrite <- Hraw' | exact Hm']. }
      split; [simpl in Hle; lia | intros Hl; apply Hlg; simpl; lia].
Qed.

(** [exec] returns [null] exactly when no substring matches. *)
Lemma exec_None (raw : string) :
  VersionRegex.exec raw = None <->
  (forall pre m post, ~ MatchAt raw pre m post).
Proof.
  split.
  - induction raw as [|x raw IH]; rewrite exec_eq; intros H pre m post HM.
    + now apply MatchAt_nonempty in HM.
    + destruct (VersionRegex.match_here (String x raw)) eqn:E; [discriminate|].
      destruct HM as [Hraw Hm]. destruct pre as [|y pre].
      * simpl in Hraw.
        destruct (match_here_complete _ _ _ Hraw Hm) as (m' & E' & _).
        now rewrite E in E'.
      * simpl in Hraw. injection Hraw as <- Hraw.
        exact (IH H pre m post (conj Hraw Hm)).
  - intros H. destruct (VersionRegex.exec raw) as [m|] eqn:E; [|reflexivity].
    apply exec_Some in E as (pre & post & HM & _).
    now destruct (H pre m post).
Qed.

Lemma FirstMatch_check (raw pre m post : string) :
  raw = pre ++ m ++ post ->
  noEarlier pre (m ++ post) = true ->
  VersionRegex.match_here (m ++ post) = Some m ->
  FirstMatch raw pre m post.
Proof.
  intros -> Hno Hm.
  pose proof Hm as Hm0.
  apply match_here_Some in Hm0 as (post0 & _ & HM & _).
  split; [now split|].
  induction pre as [|x pre IH]; intros pre' m' post' [Hraw' Hm'].
  - split; [simpl; lia|]. intros Hl.
    destruct pre'; [|discriminate]. simpl in Hraw'.
    destruct (match_here_complete _ _ _ Hraw' Hm') as (m'' & E & Hle).
    rewrite Hm in E. now injection E as <-.
  - cbn [noEarlier] in Hno.
    destruct (VersionRegex.match_here (String x pre ++ m ++ post)) eqn:E;
      [discriminate|].
    destruct pre' as [|y pre'].
    + change (EmptyString ++ m' ++ post') with (m' ++ post') in Hraw'.
      destruct (match_here_complete _ _ _ Hraw' Hm') as (m'' & E' & _).
      now rewrite E in E'.
    + simpl in Hraw'. injection Hraw' as <- Hraw'.
      destruct (IH Hno pre' m' post' (conj Hraw' Hm')) as [Hle Hlg].
      split; [simpl; lia | intros Hl; apply Hlg; simpl in Hl; lia].
Qed.

End RegexFacts.

(** ** What the [SemVer] constructor accepts *)

Section SemVerShape.

Lemma dropWhile_split (p : ascii -> bool) (s : string) :
  exists ws, s = ws ++ Js.dropWhile p s /\ Js.forallb p ws = true.
Proof.
  induction s as [|c s (ws & E & F)]; cbn.
  - now exists EmptyString.
  - destruct (p c) eqn:Hc.
    + exists (String c ws). cbn. rewrite Hc, F. split; [now f_equal | reflexivity].
    + now exists EmptyString.
Qed.

Lemma trimEnd_split (s : string) :
  exists ws, s = Js.trimEnd s ++ ws /\ Js.forallb Js.isSpace ws = true.
Proof.
  induction s as [|c s (ws & E & F)]; cbn.
  - now exists EmptyString.
  - destruct (Js.trimEnd s) as [|d t] eqn:Ht.
    + cbn in E. destruct (Js.isSpace c) eqn:Hc.
      * exists (String c ws). cbn. rewrite Hc, F. split; [now f_equal | reflexivity].
      * exists ws. cbn. split; [now f_equal | exact F].
    + exists ws. cbn. split; [now f_equal | exact F].
Qed.

Lemma trim_split (s : string) :
  exists ws1 ws2,
    s = ws1 ++ Js.trim s ++ ws2
    /\ Js.forallb Js.isSpace ws1 = true
    /\ Js.forallb Js.isSpace ws2 = true.
Proof.
  destruct (dropWhile_split Js.isSpace s) as (ws1 & E1 & F1).
  destruct (trimEnd_split (Js.dropWhile Js.isSpace s)) as (ws2 & E2 & F2).
  exists ws1, ws2. unfold Js.trim. now rewrite <- E2.
Qed.

Lemma matchSuffix_inv (a b c rest : string) (m : semver.FullMatch) :
  semver.matchSuffix a b c rest = Some m ->
  semver.m1 m = a /\ semver.m2 m = b /\ semver.m3 m = c.
Proof.
  unfold semver.matchSuffix.
  destruct rest as [|ch r]; [intros H; now injection H as <-|].
  destruct (Ascii.eqb_spec ch "-") as [->|Hd].
  - destruct (Js.span _ r) as [pre r'].
    destruct (forallb semver.isPrereleaseIdentifier _); [|discriminate].
    destruct r' as [|x bld]; [intros H; now injection H as <-|].
    destruct (forallb semver.isBuildIdentifier _); [|discriminate].
    intros H; now injection H as <-.
  - destruct (Ascii.eqb_spec ch "+") as [->|Hp].
    + destruct (forallb semver.isBuildIdentifier _); [|discriminate].
      intros H; now injection H as <-.
    + destruct ch as [[] [] [] [] [] [] [] []];
        first [discriminate | now destruct Hd | now destruct Hp].
Qed.

Lemma strip_v (s : string) :
  exists vopt,
    s = vopt ++ match s with String "v" r => r | _ => s end
    /\ (vopt = EmptyString \/ vopt = "v").
Proof.
  destruct s as [|c r]; [now exists EmptyString; auto|].
  destruct (Ascii.eqb_spec c "v") as [->|Hc].
  - exists "v". auto.
  - exists EmptyString. split; [|now left].
    destruct c as [[] [] [] [] [] [] [] []];
      first [reflexivity | now destruct Hc].
Qed.

Lemma dot_inv (r : string) (A : Type) (k : string -> A) (d : A) (y : A) :
  match r with String "." r' => k r' | _ => d end = y ->
  (exists r', r = String "." r' /\ k r' = y) \/ d = y.
Proof.
  destruct r as [|c r']; [now right|].
  destruct (Ascii.eqb_spec c ".") as [->|Hc].
  - left. now exists r'.
  - right. destruct c as [[] [] [] [] [] [] [] []];
      first [assumption | now destruct Hc].
Qed.

Lemma matchFULL_inv (t : string) (m : semver.FullMatch) :
  semver.matchFULL t = Some m ->
  exists vopt rest,
    t = vopt ++ mainOf (semver.m1 m) (semver.m2 m) (semver.m3 m) ++ rest
    /\ (vopt = EmptyString \/ vopt = "v")
    /\ semver.isNumericIdentifier (semver.m1 m) = true
    /\ semver.isNumericIdentifier (semver.m2 m) = true
    /\ semver.isNumericIdentifier (semver.m3 m) = true
    /\ startsOutside Js.isDigit rest = true.
Proof.
  unfold semver.matchFULL.
  destruct (strip_v t) as (vopt & Et & Hv).
  set (s0 := match t with String "v" r => r | _ => t end) in *.
  destruct (Js.span Js.isDigit s0) as [a r1] eqn:S1.
  intros H. apply dot_inv in H as [(r1' & -> & H) | H]; [|discriminate].
  destruct (Js.span Js.isDigit r1') as [b r2] eqn:S2.
  apply dot_inv in H as [(r2' & -> & H) | H]; [|discriminate].
  destruct (Js.span Js.isDigit r2') as [c r3] eqn:S3.
  destruct (semver.isNumericIdentifier a) eqn:Na; [|discriminate].
  destruct (semver.isNumericIdentifier b) eqn:Nb; [|discriminate].
  destruct (semver.isNumericIdentifier c) eqn:Nc; [|discriminate].
  cbn [andb] in H. apply matchSuffix_inv in H as (-> & -> & ->).
  apply span_spec in S1 as (E1 & _ & _).
  apply span_spec in S2 as (E2 & _ & _).
  apply span_spec in S3 as (E3 & _ & O3).
  exists vopt, r3. repeat split; try assumption.
  rewrite Et, E1, E2, E3. unfold mainOf.
  repeat (rewrite ?append_assoc; cbn [String.append]). reflexivity.
Qed.

Lemma match_here_nondigit (c : ascii) (s : string) :
  Js.isDigit c = false -> VersionRegex.match_here (String c s) = None.
Proof.
  intros H. unfold VersionRegex.match_here. cbn [Js.span]. now rewrite H.
Qed.

Lemma exec_skip (pre s : string) :
  Js.forallb (fun c => negb (Js.isDigit c)) pre = true ->
  VersionRegex.exec (pre ++ s) = VersionRegex.exec s.
Proof.
  induction pre as [|c pre IH]; cbn [String.append Js.forallb]; [reflexivity|].
  intros H. apply andb_true_iff in H as [Hc Hpre].
  apply negb_true_iff in Hc.
  now rewrite exec_eq, (match_here_nondigit _ _ Hc), IH.
Qed.

Lemma space_not_digit (c : ascii) :
  Js.isSpace c = true -> negb (Js.isDigit c) = true.
Proof.
  intros H. destruct (Js.isDigit c) eqn:Hd; [|reflexivity].
  apply digit_not_space in Hd. now rewrite H in Hd.
Qed.

(** The text of an accepted version reads, after white space and an
    optional [v], [d1.d2.d3] followed by a non-digit; so the first match of
    [/(\d+\.\d+\.\d+)/] in it is its main version. *)
Lemma new_SemVer_Ok_inv (text : string) (sv : semver.SemVer) :
  semver.new_SemVer text = Ok sv ->
  exists d1 d2 d3,
    VersionRegex.exec text = Some (mainOf d1 d2 d3)
    /\ semver.raw sv = text
    /\ semver.major sv = Js.toNumber d1
    /\ semver.minor sv = Js.toNumber d2
    /\ semver.patch sv = Js.toNumber d3
    /\ semver.isNumericIdentifier d1 = true
    /\ semver.isNumericIdentifier d2 = true
    /\ semver.isNumericIdentifier d3 = true
    /\ Js.toNumber d1 <= semver.MAX_SAFE_INTEGER
    /\ Js.toNumber d2 <= semver.MAX_SAFE_INTEGER
    /\ Js.toNumber d3 <= semver.MAX_SAFE_INTEGER.
Proof.
  unfold semver.new_SemVer.
  destruct (semver.MAX_LENGTH <? String.length text)%nat; [discriminate|].
  destruct (semver.matchFULL (Js.trim text)) as [m|] eqn:Hm; [|discriminate].
  destruct (semver.MAX_SAFE_INTEGER <? Js.toNumber (semver.m1 m)) eqn:L1;
    [discriminate|].
  destruct (semver.MAX_SAFE_INTEGER <? Js.toNumber (semver.m2 m)) eqn:L2;
    [discriminate|].
  destruct (semver.MAX_SAFE_INTEGER <? Js.toNumber (semver.m3 m)) eqn:L3;
    [discriminate|].
  intros H. injection H as <-.
  apply N.ltb_ge in L1, L2, L3.
  apply matchFULL_inv in Hm as (vopt & rest & Et & Hv & N1 & N2 & N3 & Hrest).
  destruct (trim_split text) as (ws1 & ws2 & Etext & F1 & F2).
  exists (semver.m1 m), (semver.m2 m), (semver.m3 m).
  cbn [semver.raw semver.major semver.minor semver.patch].
  repeat split; try assumption.
  rewrite Etext, Et.
  set (main := mainOf (semver.m1 m) (semver.m2 m) (semver.m3 m)).
  replace (ws1 ++ (vopt ++ main ++ rest) ++ ws2)
    with ((ws1 ++ vopt) ++ main ++ (rest ++ ws2))
    by (now rewrite !append_assoc).
  rewrite exec_skip.
  - rewrite exec_eq, match_here_exact; [reflexivity | |].
    + exists (semver.m1 m), (semver.m2 m), (semver.m3 m).
      repeat split; auto with numerals.
    + destruct rest as [|c rest]; [|exact Hrest].
      destruct ws2 as [|c ws2]; [reflexivity|].
      cbn in *. apply andb_true_iff in F2 as [Hc _].
      now apply space_not_digit.
  - rewrite forallb_append.
    rewrite (forallb_impl _ _ _ space_not_digit F1).
    destruct Hv as [-> | ->]; reflexivity.
Qed.

End SemVerShape.

(** ** The [Version] constructor *)

Section VersionFacts.

Lemma new_SemVer_zero : semver.new_SemVer "0.0.0" = Ok zeroSemVer.
Proof. reflexivity. Qed.

Lemma new_Version_eq (raw : string) :
  new_Version raw =
  match VersionRegex.exec raw with
  | Some m =>
      match semver.new_SemVer m with
      | Ok sv => Ok {| raw := raw; semver := sv |}
      | Throw e => Throw e
      end
  | None => Ok {| raw := raw; semver := zeroSemVer |}
  end.
Proof.
  unfold new_Version. destruct (VersionRegex.exec raw); [reflexivity|].
  now rewrite new_SemVer_zero.
Qed.

(** What a successful construction tells: the label is kept, and the
    semantic version is [0.0.0] when nothing matches, or else the plain
    reading of the first match, which then is canonical and in range. *)
Lemma new_Version_Ok_inv (label : string) (v : Version) :
  new_Version label = Ok v ->
  raw v = label
  /\ ((VersionRegex.exec label = None /\ semver v = zeroSemVer)
      \/ exists d1 d2 d3,
           VersionRegex.exec label = Some (mainOf d1 d2 d3)
           /\ semver v = plainSemVer d1 d2 d3
           /\ semver.isNumericIdentifier d1 = true
           /\ semver.isNumericIdentifier d2 = true
           /\ semver.isNumericIdentifier d3 = true
           /\ Js.toNumber d1 <= semver.MAX_SAFE_INTEGER
           /\ Js.toNumber d2 <= semver.MAX_SAFE_INTEGER
           /\ Js.toNumber d3 <= semver.MAX_SAFE_INTEGER).
Proof.
  rewrite new_Version_eq.
  destruct (VersionRegex.exec label) as [m|] eqn:E.
  - destruct (semver.new_SemVer m) as [sv|e] eqn:Hsv; [|discriminate].
    intros H. injection H as <-. split; [reflexivity|]. right.
    destruct (exec_Some _ _ E) as (pre & post & [[_ HM] _]).
    destruct HM as (d1 & d2 & d3 & -> & H1 & H2 & H3).
    destruct (new_SemVer_main_plain _ _ _ _ H1 H2 H3 Hsv)
      as (-> & N1 & N2 & N3 & L1 & L2 & L3).
    exists d1, d2, d3. now repeat split.
  - intros H. injection H as <-. split; [reflexivity|]. now left.
Qed.

Lemma new_Version_plain (label : string) (v : Version) :
  new_Version label = Ok v ->
  semver.prerelease (semver v) = [] /\ semver.build (semver v) = [].
Proof.
  intros H. apply new_Version_Ok_inv in H as [_ [[_ ->] | (d1 & d2 & d3 & _ & -> & _)]];
    now split.
Qed.

End VersionFacts.

(** ** Claims about the parser *)

(** C2.  Every [Version] that the constructor returns has a semantic version
    with an empty prerelease sequence and an empty build sequence: the
    [SemVer] constructor is given only the first substring of the label that
    reads digits.digits.digits (or the text 0.0.0), so any suffix of the
    label is discarded.  Consequently the prerelease/build branch of the
    filter never rejects such a [Version]: the callback of the filter gives
    the same answer whatever [includePrereleases] is. *)
Theorem Version_never_carries_prerelease (label : string) (v : Version) :
  new_Version label = Ok v ->
  semver.prerelease (semver v) = []
  /\ semver.build (semver v) = []
  /\ (exists m,
        semver.new_SemVer m = Ok (semver v)
        /\ (VersionRegex.exec label = Some m /\ Matches m
            \/ VersionRegex.exec label = None /\ m = "0.0.0"))
  /\ forall prefix includePrereleases,
       filterCheck prefix includePrereleases v = filterCheck prefix true v.
Proof.
  intros H.
  destruct (new_Version_plain _ _ H) as [Hp Hb].
  split; [exact Hp|]. split; [exact Hb|]. split.
  - rewrite new_Version_eq in H.
    destruct (VersionRegex.exec label) as [m|] eqn:E.
    + destruct (semver.new_SemVer m) as [sv|e] eqn:Hsv; [|discriminate].
      injection H as <-. exists m. split; [exact Hsv|]. left. split; [reflexivity|].
      now destruct (exec_Some _ _ E) as (pre & post & [[_ HM] _]).
    + injection H as <-. exists "0.0.0". split; [reflexivity|]. now right.
  - intros prefix [|]; [reflexivity|].
    unfold filterCheck. now rewrite Hp, Hb.
Qed.

Lemma Version_never_carries_prerelease_witness :
  new_Version "v2.0.0-beta"
  = Ok {| raw := "v2.0.0-beta"; semver := plainSemVer "2" "0" "0" |}
  /\ semver.prerelease (plainSemVer "2" "0" "0") = []
  /\ filterCheck "v" false
       {| raw := "v2.0.0-beta"; semver := plainSemVer "2" "0" "0" |} = true.
Proof.
  assert (new_Version "v2.0.0-beta"
          = Ok {| raw := "v2.0.0-beta"; semver := plainSemVer "2" "0" "0" |}) as H
    by reflexivity.
  split; [exact H|].
  destruct (Version_never_carries_prerelease _ _ H) as (Hp & _ & _ & Hf).
  split; [exact Hp|].
  rewrite (Hf "v" false). reflexivity.
Defined.

(** C4.  The label [v01.2.3] shows where the parser departs from the
    claim: its first substring that reads digits.digits.digits is [01.2.3],
    and the constructor does not use it as major 1, minor 2 and patch 3 but
    throws, because the [SemVer] constructor rejects a component written
    with a leading zero. *)
Theorem Version_leading_zero_rejected :
  FirstMatch "v01.2.3" "v" "01.2.3" EmptyString
  /\ new_Version "v01.2.3" = Throw (TypeError "Invalid Version: 01.2.3").
Proof.
  split; [apply FirstMatch_check; reflexivity | reflexivity].
Qed.

(** ** The increment resolver *)

(** C5.  The resolver answers major when the text contains the literal
    [(MAJOR)]; otherwise minor when it contains [(MINOR)]; otherwise patch,
    with or without [(PATCH)].  Containment is plain substring containment:
    the marker may stand anywhere in the text and only its upper-case
    spelling counts. *)
Theorem getIncrementLevelFromTitle_precedence (title : string) :
  (Contains "(MAJOR)" title ->
   getIncrementLevelFromTitle title = ReleaseType.major)
  /\ (~ Contains "(MAJOR)" title -> Contains "(MINOR)" title ->
      getIncrementLevelFromTitle title = ReleaseType.minor)
  /\ (~ Contains "(MAJOR)" title -> ~ Contains "(MINOR)" title ->
      getIncrementLevelFromTitle title = ReleaseType.patch)
  /\ getIncrementLevelFromTitle "(MAJOR) and (PATCH)" = ReleaseType.major
  /\ getIncrementLevelFromTitle "chore: tidy up" = ReleaseType.patch
  /\ getIncrementLevelFromTitle EmptyString = ReleaseType.patch
  /\ getIncrementLevelFromTitle "breaking (major) change" = ReleaseType.patch
  /\ getIncrementLevelFromTitle "feat: new flag (MINOR), see docs"
     = ReleaseType.minor.
Proof.
  unfold getIncrementLevelFromTitle at 1 2 3.
  destruct (Js.includes title "(MAJOR)") eqn:HM;
    destruct (Js.includes title "(MINOR)") eqn:Hm;
    destruct (Js.includes title "(PATCH)") eqn:Hp;
    rewrite <- ?includes_spec, ?HM, ?Hm;
    repeat split; try reflexivity; intros; try congruence;
    exfalso; auto using diff_false_true, diff_true_false.
Qed.

Lemma getIncrementLevelFromTitle_precedence_witness :
  Contains "(MINOR)" "fix (PATCH) and feat (MINOR)"
  /\ getIncrementLevelFromTitle "fix (PATCH) and feat (MINOR)"
     = ReleaseType.minor.
Proof.
  assert (Contains "(MINOR)" "fix (PATCH) and feat (MINOR)") as Hm
    by (apply includes_spec; reflexivity).
  split; [exact Hm|].
  apply (proj1 (proj2 (getIncrementLevelFromTitle_precedence _))); [|exact Hm].
  intros HM. apply includes_spec in HM. discriminate HM.
Defined.

(** ** Ordering and sorting *)

Section Doubles.

(** Below 2^53 the conversion to a double changes nothing. *)
Lemma toDouble_exact (n : N) : n < 2 ^ 53 -> Js.toDouble n = n.
Proof.
  intros Hn.
  assert (N.size n <= 53) as Hs.
  { destruct (N.eq_dec n 0) as [->|Hz]; [cbn; lia|].
    rewrite N.size_log2 by exact Hz.
    assert (N.log2 n < 53) by (apply N.log2_lt_pow2; lia). lia. }
  unfold Js.toDouble.
  replace (N.size n - 53) with 0 by lia.
  rewrite N.shiftr_0_r, N.shiftl_0_r.
  change (N.ones 0) with 0. rewrite N.land_0_r.
  change (N.shiftl 1 (0 - 1)) with 1. cbn [N.ltb N.eqb N.compare orb andb].
  apply N.min_l. unfold Js.infinity.
  apply N.lt_le_incl. apply (N.lt_trans _ (2 ^ 53)); [exact Hn|].
  apply N.pow_lt_mono_r; lia.
Qed.

(** Above 2^53 neighbouring integers share a double: the two identifiers
    differ as strings and compare as equal. *)
Lemma compareIdentifiers_rounds :
  Js.toDouble 9007199254740993 = 9007199254740992
  /\ Js.toDouble 9007199254740995 = 9007199254740996
  /\ semver.compareIdentifiers (semver.IdStr "9007199254740993")
       (semver.IdStr "9007199254740992") = 0%Z
  /\ semver.compareIdentifiers (semver.IdStr "9007199254740994")
       (semver.IdStr "9007199254740992") = 1%Z.
Proof. repeat split; vm_compute; reflexivity. Qed.

End Doubles.

Section CompareFacts.

Lemma string_ltb_antisym (s t : string) :
  String.eqb s t = false -> String.ltb t s = negb (String.ltb s t).
Proof.
  intros H. apply String.eqb_neq in H.
  unfold String.ltb. rewrite (String.compare_antisym t s).
  destruct (String.compare s t) eqn:E; try reflexivity.
  apply String.compare_eq_iff in E. contradiction.
Qed.

Lemma compareIdentifiers_antisym (a b : semver.Identifier) :
  semver.compareIdentifiers b a = (- semver.compareIdentifiers a b)%Z.
Proof.
  assert (forall n m : N,
             (if n =? m then 0%Z else if n <? m then (-1)%Z else 1%Z)
             = Z.opp (if m =? n then 0%Z else if m <? n then (-1)%Z else 1%Z))
    as Hnum.
  { intros n m. rewrite (N.eqb_sym m n).
    destruct (N.eqb_spec n m); [reflexivity|].
    destruct (N.ltb_spec n m), (N.ltb_spec m n); try reflexivity; lia. }
  destruct a as [n|s], b as [m|t]; unfold semver.compareIdentifiers;
    cbn [semver.idIsNumeric semver.idNumber].
  - cbn. apply Hnum.
  - destruct (semver.isNumeric t) eqn:Ht; cbn.
    + rewrite ?Ht; cbn; apply Hnum.
    + reflexivity.
  - destruct (semver.isNumeric s) eqn:Hs; cbn.
    + rewrite ?Hs; cbn; apply Hnum.
    + reflexivity.
  - destruct (semver.isNumeric s) eqn:Hs, (semver.isNumeric t) eqn:Ht; cbn.
    + rewrite ?Hs, ?Ht; cbn; apply Hnum.
    + destruct (String.eqb_spec t s) as [->|]; [congruence|].
      destruct (String.eqb_spec s t) as [->|]; [congruence|]. reflexivity.
    + destruct (String.eqb_spec t s) as [->|]; [congruence|].
      destruct (String.eqb_spec s t) as [->|]; [congruence|]. reflexivity.
    + rewrite (String.eqb_sym t s).
      destruct (String.eqb s t) eqn:E; [reflexivity|].
      rewrite (string_ltb_antisym _ _ E).
      now destruct (String.ltb s t).
Qed.

Lemma strictEq_sym (a b : semver.Identifier) :
  semver.strictEq a b = semver.strictEq b a.
Proof.
  destruct a, b; cbn; auto using N.eqb_sym, String.eqb_sym.
Qed.

Lemma orElse_opp (x y : Z) :
  semver.orElse (- x) (- y) = (- semver.orElse x y)%Z.
Proof.
  unfold semver.orElse. destruct (Z.eqb_spec x 0) as [->|H]; [reflexivity|].
  destruct (Z.eqb_spec (- x) 0); [lia | reflexivity].
Qed.

Lemma compareMain_antisym (a b : semver.SemVer) :
  semver.compareMain b a = (- semver.compareMain a b)%Z.
Proof.
  unfold semver.compareMain.
  rewrite (compareIdentifiers_antisym (semver.IdNum (semver.major a))),
    (compareIdentifiers_antisym (semver.IdNum (semver.minor a))),
    (compareIdentifiers_antisym (semver.IdNum (semver.patch a))).
  now rewrite !orElse_opp.
Qed.

Lemma comparePre_loop_antisym (p q : list semver.Identifier) :
  semver.comparePre_loop q p = (- semver.comparePre_loop p q)%Z.
Proof.
  revert q. induction p as [|a p IH]; intros [|b q]; cbn; try reflexivity.
  rewrite (strictEq_sym b a).
  destruct (semver.strictEq a b); [apply IH | apply compareIdentifiers_antisym].
Qed.

Lemma comparePre_antisym (a b : semver.SemVer) :
  semver.comparePre b a = (- semver.comparePre a b)%Z.
Proof.
  unfold semver.comparePre.
  destruct (semver.prerelease a) as [|x p] eqn:Ha,
           (semver.prerelease b) as [|y q] eqn:Hb; try reflexivity.
  apply comparePre_loop_antisym.
Qed.

(** Swapping the arguments of [semver.compare] negates the result. *)
Lemma compare_antisym (a b : semver.SemVer) :
  semver.compare b a = (- semver.compare a b)%Z.
Proof.
  unfold semver.compare. rewrite (String.eqb_sym (semver.format a)).
  destruct (String.eqb (semver.format b) (semver.format a)); [reflexivity|].
  now rewrite compareMain_antisym, comparePre_antisym, orElse_opp.
Qed.

End CompareFacts.

Section Consistency.

Lemma compareNum (n m : N) :
  semver.compareIdentifiers (semver.IdNum n) (semver.IdNum m)
  = if n =? m then 0%Z else if n <? m then (-1)%Z else 1%Z.
Proof. reflexivity. Qed.

Lemma compareMain_le (a b : semver.SemVer) :
  (semver.compareMain a b <= 0)%Z <-> lexLe (triple a) (triple b).
Proof.
  unfold semver.compareMain, semver.orElse, lexLe, triple.
  rewrite !compareNum.
  destruct (N.eqb_spec (semver.major a) (semver.major b)),
           (N.ltb_spec (semver.major a) (semver.major b)),
           (N.eqb_spec (semver.minor a) (semver.minor b)),
           (N.ltb_spec (semver.minor a) (semver.minor b)),
           (N.eqb_spec (semver.patch a) (semver.patch b)),
           (N.ltb_spec (semver.patch a) (semver.patch b));
    cbn; split; intros; lia.
Qed.

Lemma compareMain_zero (a b : semver.SemVer) :
  triple a = triple b -> semver.compareMain a b = 0%Z.
Proof.
  unfold triple. intros H. injection H as Ha Hb Hc.
  unfold semver.compareMain, semver.orElse. rewrite !compareNum, Ha, Hb, Hc.
  now rewrite !N.eqb_refl.
Qed.

Lemma mainOf_inj (d1 d2 d3 e1 e2 e3 : string) :
  semver.isNumeric d1 = true -> semver.isNumeric d2 = true ->
  semver.isNumeric e1 = true -> semver.isNumeric e2 = true ->
  mainOf d1 d2 d3 = mainOf e1 e2 e3 ->
  d1 = e1 /\ d2 = e2 /\ d3 = e3.
Proof.
  intros D1 D2 E1 E2 H.
  apply isNumeric_inv in D1 as (D1 & _). apply isNumeric_inv in D2 as (D2 & _).
  apply isNumeric_inv in E1 as (E1 & _). apply isNumeric_inv in E2 as (E2 & _).
  unfold mainOf in H.
  pose proof (span_append Js.isDigit d1 ("." ++ d2 ++ "." ++ d3) D1 eq_refl) as S1.
  rewrite H, (span_append Js.isDigit e1) in S1 by (assumption || reflexivity).
  injection S1 as <- S1.
  pose proof (span_append Js.isDigit d2 (String "." d3) D2 eq_refl) as S2.
  rewrite <- S1, (span_append Js.isDigit e2) in S2 by (assumption || reflexivity).
  now injection S2 as <- <-.
Qed.

Lemma format_plain (a : semver.SemVer) :
  semver.prerelease a = [] ->
  semver.format a
  = mainOf (Js.ofNumber (semver.major a)) (Js.ofNumber (semver.minor a))
      (Js.ofNumber (semver.patch a)).
Proof. unfold semver.format. now intros ->. Qed.

(** On versions without prerelease identifiers, [semver.compare] is the
    comparison of the three numbers. *)
Lemma compare_plain (a b : semver.SemVer) :
  semver.prerelease a = [] -> semver.prerelease b = [] ->
  semver.compare a b = semver.compareMain a b.
Proof.
  intros Ha Hb. unfold semver.compare.
  rewrite (format_plain a Ha), (format_plain b Hb).
  destruct (String.eqb_spec
              (mainOf (Js.ofNumber (semver.major b)) (Js.ofNumber (semver.minor b))
                 (Js.ofNumber (semver.patch b)))
              (mainOf (Js.ofNumber (semver.major a)) (Js.ofNumber (semver.minor a))
                 (Js.ofNumber (semver.patch a)))) as [E|_].
  - apply mainOf_inj in E as (E1 & E2 & E3);
      auto with numerals.
    apply ofNumber_inj in E1, E2, E3.
    symmetry. apply compareMain_zero. unfold triple. congruence.
  - unfold semver.comparePre. rewrite Ha, Hb.
    unfold semver.orElse. now destruct (Z.eqb_spec (semver.compareMain a b) 0).
Qed.

(** So on the versions that the [Version] constructor builds the comparator
    of [filterAndSortVersions] is a total preorder: a consistent comparator
    for [Array.prototype.sort]. *)
Lemma compare_plain_trans (a b c : semver.SemVer) :
  semver.prerelease a = [] -> semver.prerelease b = [] ->
  semver.prerelease c = [] ->
  (semver.compare a b <= 0)%Z -> (semver.compare b c <= 0)%Z ->
  (semver.compare a c <= 0)%Z.
Proof.
  intros Ha Hb Hc. rewrite !compare_plain by assumption.
  rewrite !compareMain_le. unfold lexLe, triple. lia.
Qed.

Lemma compare_total (a b : semver.SemVer) :
  (semver.compare a b <= 0)%Z \/ (semver.compare b a <= 0)%Z.
Proof. rewrite (compare_antisym a b). lia. Qed.

Lemma insert_permutation {A} (cmp : A -> A -> Z) (x : A) (l : list A) :
  Permutation (x :: l) (Js.insert cmp x l).
Proof.
  induction l as [|y l IH]; cbn; [reflexivity|].
  destruct (cmp x y <=? 0)%Z; [reflexivity|].
  rewrite perm_swap. now constructor.
Qed.

(** The sorted array holds the same elements. *)
Lemma sort_permutation {A} (cmp : A -> A -> Z) (l : list A) :
  Permutation l (Js.sort cmp l).
Proof.
  induction l as [|x l IH]; cbn; [constructor|].
  rewrite <- insert_permutation. now constructor.
Qed.

End Consistency.

Section SortFacts.

Context {A : Type} (comparefn : A -> A -> Z).
Hypothesis comparefn_antisym :
  forall x y, comparefn y x = (- comparefn x y)%Z.

Lemma insert_Forall (P : A -> Prop) (x : A) (l : list A) :
  P x -> Forall P l -> Forall P (Js.insert comparefn x l).
Proof.
  intros Hx. induction 1 as [|y l Hy Hl IH]; cbn.
  - now constructor.
  - destruct (comparefn x y <=? 0)%Z; repeat constructor; assumption.
Qed.

Lemma sort_Forall (P : A -> Prop) (l : list A) :
  Forall P l -> Forall P (Js.sort comparefn l).
Proof.
  induction 1 as [|x l Hx Hl IH]; cbn; [constructor|].
  now apply insert_Forall.
Qed.

Lemma insert_sorted (x : A) (l : list A) :
  Sorted.Sorted (inOrder comparefn) l -> Sorted.Sorted (inOrder comparefn) (Js.insert comparefn x l).
Proof.
  induction 1 as [|y l Hl IH Hhd]; cbn.
  - repeat constructor.
  - destruct (comparefn x y <=? 0)%Z eqn:E.
    + apply Z.leb_le in E. repeat constructor; assumption.
    + apply Z.leb_gt in E. constructor; [exact IH|].
      destruct Hhd as [|z l Hyz]; cbn.
      * constructor. unfold inOrder. rewrite comparefn_antisym. lia.
      * destruct (comparefn x z <=? 0)%Z; constructor; [|exact Hyz].
        unfold inOrder. rewrite comparefn_antisym. lia.
Qed.

Lemma sort_sorted (l : list A) : Sorted.Sorted (inOrder comparefn) (Js.sort comparefn l).
Proof.
  induction l as [|x l IH]; cbn; [constructor | now apply insert_sorted].
Qed.

(** Sorting leaves a sorted array as it is. *)
Lemma sort_of_sorted (l : list A) :
  Sorted.Sorted (inOrder comparefn) l -> Js.sort comparefn l = l.
Proof.
  induction 1 as [|x l Hl IH Hhd]; cbn; [reflexivity|].
  fold (Js.sort comparefn l). rewrite IH.
  destruct Hhd as [|y l Hxy]; cbn; [reflexivity|].
  apply Z.leb_le in Hxy. now rewrite Hxy.
Qed.

Lemma sort_idempotent (l : list A) :
  Js.sort comparefn (Js.sort comparefn l) = Js.sort comparefn l.
Proof. apply sort_of_sorted, sort_sorted. Qed.

Lemma filter_all (f : A -> bool) (l : list A) :
  Forall (fun x => f x = true) l -> filter f l = l.
Proof.
  induction 1 as [|x l Hx Hl IH]; cbn; [reflexivity|].
  now rewrite Hx, IH.
Qed.

Lemma filter_Forall (f : A -> bool) (l : list A) :
  Forall (fun x => f x = true) (filter f l).
Proof.
  apply Forall_forall. intros x Hx. now apply filter_In in Hx.
Qed.

End SortFacts.

Section FilterFacts.

Lemma mapM_Constructed (labels : list string) (versions : list Version) :
  mapM new_Version labels = Ok versions -> Forall Constructed versions.
Proof.
  revert versions. induction labels as [|label labels IH]; cbn; intros versions H.
  - injection H as <-. constructor.
  - destruct (new_Version label) as [v|] eqn:Hv; [|discriminate].
    destruct (mapM new_Version labels) as [vs|]; [|discriminate].
    cbn in H. injection H as <-.
    constructor; [now exists label | now apply IH].
Qed.

(** On versions that the constructor built, the [includePrereleases] flag
    has no effect on [filterAndSortVersions]. *)
Lemma filterAndSortVersions_flag (versions : list Version) (prefix : string) :
  Forall Constructed versions ->
  filterAndSortVersions versions prefix false
  = filterAndSortVersions versions prefix true.
Proof.
  intros Hall. unfold filterAndSortVersions. f_equal.
  apply filter_ext_in. intros v Hin.
  rewrite Forall_forall in Hall. destruct (Hall v Hin) as [label Hv].
  destruct (new_Version_plain _ _ Hv) as [Hp Hb].
  unfold filterCheck. now rewrite Hp, Hb.
Qed.

End FilterFacts.

(** C10.  Filtering is idempotent on the versions of the program, those
    that the [Version] constructor built: filtering and sorting the output
    of [filterAndSortVersions] again, with the same prefix and the same
    [includePrereleases], returns that output unchanged.  The output
    consists of constructor-built versions again, so this holds for any
    number of passes.  On these versions [semver.compare] is a total
    preorder ([compare_plain_trans], [compare_total]), so the result of
    [sort] is determined. *)
Theorem filterAndSortVersions_idempotent
  (versions : list Version) (prefix : string) (includePrereleases : bool) :
  Forall Constructed versions ->
  filterAndSortVersions
    (filterAndSortVersions versions prefix includePrereleases)
    prefix includePrereleases
  = filterAndSortVersions versions prefix includePrereleases
  /\ Forall Constructed
       (filterAndSortVersions versions prefix includePrereleases).
Proof.
  intros Hall. unfold filterAndSortVersions.
  set (cmp := fun x y : Version => semver.compare (semver y) (semver x)).
  assert (forall x y, cmp y x = (- cmp x y)%Z) as Hanti
    by (intros x y; apply compare_antisym).
  split.
  - rewrite filter_all.
    + now apply sort_idempotent.
    + apply sort_Forall, filter_Forall.
  - apply sort_Forall. apply Forall_forall. intros v Hv.
    apply filter_In in Hv as [Hv _]. rewrite Forall_forall in Hall. auto.
Qed.

Lemma filterAndSortVersions_idempotent_witness :
  filterAndSortVersions
    (filterAndSortVersions
       [ {| raw := "v1.2.0"; semver := plainSemVer "1" "2" "0" |};
         {| raw := "w3.0.0"; semver := plainSemVer "3" "0" "0" |};
         {| raw := "v1.10.0-rc.1"; semver := plainSemVer "1" "10" "0" |};
         {| raw := "v1.9.3"; semver := plainSemVer "1" "9" "3" |} ] "v" false)
    "v" false
  = [ {| raw := "v1.10.0-rc.1"; semver := plainSemVer "1" "10" "0" |};
      {| raw := "v1.9.3"; semver := plainSemVer "1" "9" "3" |};
      {| raw := "v1.2.0"; semver := plainSemVer "1" "2" "0" |} ].
Proof.
  assert (Forall Constructed
    [ {| raw := "v1.2.0"; semver := plainSemVer "1" "2" "0" |};
      {| raw := "w3.0.0"; semver := plainSemVer "3" "0" "0" |};
      {| raw := "v1.10.0-rc.1"; semver := plainSemVer "1" "10" "0" |};
      {| raw := "v1.9.3"; semver := plainSemVer "1" "9" "3" |} ]) as HC
    by (apply (mapM_Constructed ["v1.2.0"; "w3.0.0"; "v1.10.0-rc.1"; "v1.9.3"]);
        reflexivity).
  rewrite (proj1 (filterAndSortVersions_idempotent _ "v" false HC)).
  reflexivity.
Defined.

(** ** The bumper *)

Section BumpFacts.

Lemma exec_mainOf (d1 d2 d3 : string) :
  semver.isNumeric d1 = true ->
  semver.isNumeric d2 = true ->
  semver.isNumeric d3 = true ->
  VersionRegex.exec (mainOf d1 d2 d3) = Some (mainOf d1 d2 d3).
Proof.
  intros H1 H2 H3. rewrite exec_eq.
  rewrite <- (append_nil_r (mainOf d1 d2 d3)) at 1.
  rewrite match_here_exact; [reflexivity | | reflexivity].
  now exists d1, d2, d3.
Qed.

Lemma new_Version_canonical (a b c : N) :
  a <= semver.MAX_SAFE_INTEGER ->
  b <= semver.MAX_SAFE_INTEGER ->
  c <= semver.MAX_SAFE_INTEGER ->
  new_Version (mainOf (Js.ofNumber a) (Js.ofNumber b) (Js.ofNumber c))
  = Ok (canonicalVersion (a, b, c)).
Proof.
  intros La Lb Lc. rewrite new_Version_eq.
  rewrite exec_mainOf by auto with numerals.
  rewrite new_SemVer_canonical;
    rewrite ?toNumber_ofNumber; auto using ofNumber_numeric.
Qed.

Lemma new_Version_canonical_inv (a b c : N) (v : Version) :
  new_Version (mainOf (Js.ofNumber a) (Js.ofNumber b) (Js.ofNumber c)) = Ok v ->
  v = canonicalVersion (a, b, c)
  /\ a <= semver.MAX_SAFE_INTEGER
  /\ b <= semver.MAX_SAFE_INTEGER
  /\ c <= semver.MAX_SAFE_INTEGER.
Proof.
  rewrite new_Version_eq.
  rewrite exec_mainOf by auto with numerals.
  destruct (semver.new_SemVer _) as [sv|e] eqn:E; [|discriminate].
  apply new_SemVer_main_plain in E
    as (-> & _ & _ & _ & La & Lb & Lc);
    auto with numerals.
  rewrite !toNumber_ofNumber in *.
  intros H. injection H as <-. now repeat split.
Qed.

Lemma Constructed_WellFormed (v : Version) : Constructed v -> WellFormed v.
Proof.
  intros [label H]. rewrite new_Version_eq in H.
  destruct (VersionRegex.exec label) as [m|].
  - destruct (semver.new_SemVer m) as [sv|] eqn:E; [|discriminate].
    injection H as <-. now exists m.
  - injection H as <-. now exists "0.0.0".
Qed.

(** The temporary [Version] of [bumpVersion]: built from the raw text of
    the semantic version, it is the plain reading of its main version and
    has the same three numbers. *)
Lemma WellFormed_inv (v : Version) :
  WellFormed v ->
  exists d1 d2 d3,
    new_Version (semver.raw (semver v))
    = Ok {| raw := semver.raw (semver v); semver := plainSemVer d1 d2 d3 |}
    /\ triple (plainSemVer d1 d2 d3) = triple (semver v)
    /\ semver.major (semver v) <= semver.MAX_SAFE_INTEGER
    /\ semver.minor (semver v) <= semver.MAX_SAFE_INTEGER
    /\ semver.patch (semver v) <= semver.MAX_SAFE_INTEGER.
Proof.
  intros [text H].
  apply new_SemVer_Ok_inv in H
    as (d1 & d2 & d3 & Hex & Hraw & Ha & Hb & Hc & N1 & N2 & N3 & L1 & L2 & L3).
  exists d1, d2, d3. rewrite Hraw. split; [|split].
  - rewrite new_Version_eq, Hex. now rewrite new_SemVer_canonical.
  - unfold triple. cbn. now rewrite Ha, Hb, Hc.
  - now rewrite Ha, Hb, Hc.
Qed.

Lemma inc_plain (d1 d2 d3 : string) (level : ReleaseType.t) :
  semver.raw (semver.inc (plainSemVer d1 d2 d3) level)
  = raw (canonicalVersion (bumped level (plainSemVer d1 d2 d3))).
Proof.
  destruct level; unfold semver.inc;
    cbn [plainSemVer semver.prerelease semver.build semver.raw semver.major
         semver.minor semver.patch];
    rewrite ?orb_true_r; reflexivity.
Qed.

Lemma bumped_triple (level : ReleaseType.t) (sv sv' : semver.SemVer) :
  triple sv = triple sv' -> bumped level sv = bumped level sv'.
Proof.
  unfold triple. intros H. injection H as Ha Hb Hc.
  destruct level; cbn; congruence.
Qed.

Lemma bumped_changes (level : ReleaseType.t) (sv : semver.SemVer) :
  bumped level sv <> triple sv.
Proof.
  unfold triple. destruct level; cbn; intros H; injection H; intros; lia.
Qed.

Lemma bumped_in_range (level : ReleaseType.t) (sv : semver.SemVer) :
  semver.major sv <= semver.MAX_SAFE_INTEGER ->
  semver.minor sv <= semver.MAX_SAFE_INTEGER ->
  semver.patch sv <= semver.MAX_SAFE_INTEGER ->
  component level sv < semver.MAX_SAFE_INTEGER ->
  let '(a, b, c) := bumped level sv in
  a <= semver.MAX_SAFE_INTEGER
  /\ b <= semver.MAX_SAFE_INTEGER
  /\ c <= semver.MAX_SAFE_INTEGER.
Proof.
  unfold semver.MAX_SAFE_INTEGER. destruct level; cbn; lia.
Qed.

(** [bumpVersion] is the constructor applied to the canonical text of the
    incremented numbers. *)
Lemma bumpVersion_eq (v : Version) (level : ReleaseType.t) :
  WellFormed v ->
  bumpVersion v level
  = new_Version (raw (canonicalVersion (bumped level (semver v)))).
Proof.
  intros HW.
  destruct (WellFormed_inv v HW) as (d1 & d2 & d3 & Htmp & Htr & _).
  unfold bumpVersion. rewrite Htmp. cbn [bind semver].
  now rewrite inc_plain, (bumped_triple level _ _ Htr).
Qed.

(** A label that the constructor accepts never equals the canonical text of
    its own semantic version after an increment. *)
Lemma bumped_raw_fresh (v : Version) (level : ReleaseType.t) :
  Constructed v ->
  raw (canonicalVersion (bumped level (semver v))) <> raw v.
Proof.
  intros [label H] Heq.
  apply (bumped_changes level (semver v)).
  destruct (bumped level (semver v)) as [[a b] c].
  cbn [canonicalVersion raw] in Heq.
  apply new_Version_Ok_inv in H
    as [Hraw [[Hex _] | (d1 & d2 & d3 & Hex & Hsv & N1 & N2 & N3 & L1 & L2 & L3)]];
    rewrite <- Hraw, <- Heq in Hex;
    rewrite exec_mainOf in Hex
      by auto with numerals;
    [discriminate|].
  injection Hex as Hex.
  pose proof (new_SemVer_canonical _ _ _ N1 N2 N3 L1 L2 L3) as Hd.
  rewrite <- Hex in Hd.
  apply new_SemVer_main_plain in Hd
    as (Hd & _); auto with numerals.
  rewrite !toNumber_ofNumber in Hd.
  rewrite Hsv. unfold triple, plainSemVer. cbn.
  injection Hd as -> -> ->. reflexivity.
Qed.

End BumpFacts.

(** C6.  For a well-formed [Version] (one whose semantic version is a
    [SemVer] object) whose incremented component is below
    [MAX_SAFE_INTEGER], [bumpVersion] returns a [Version]; and whenever it
    returns one, its major, minor and patch are the standard increment of
    the input's (patch: the patch number plus one; minor: the minor number
    plus one and patch 0; major: the major number plus one and minor and
    patch 0), its prerelease and build sequences are empty, and its raw text
    is the canonical string of the new semantic version; for an input that
    the [Version] constructor built, that text differs from the input's raw
    label. *)
Theorem bumpVersion_increments (v : Version) (level : ReleaseType.t) :
  WellFormed v ->
  (component level (semver v) < semver.MAX_SAFE_INTEGER ->
   bumpVersion v level = Ok (canonicalVersion (bumped level (semver v))))
  /\ forall v',
       bumpVersion v level = Ok v' ->
       triple (semver v') = bumped level (semver v)
       /\ semver.prerelease (semver v') = []
       /\ semver.build (semver v') = []
       /\ raw v' = semver.format (semver v')
       /\ raw v' = semver.raw (semver v')
       /\ (Constructed v -> raw v' <> raw v).
Proof.
  intros HW. rewrite (bumpVersion_eq v level HW). split.
  - intros Hlt.
    destruct (WellFormed_inv v HW) as (_ & _ & _ & _ & _ & L1 & L2 & L3).
    pose proof (bumped_in_range level _ L1 L2 L3 Hlt) as Hr.
    destruct (bumped level (semver v)) as [[a b] c].
    destruct Hr as (La & Lb & Lc).
    now apply new_Version_canonical.
  - intros v' Hv'.
    pose proof (bumped_raw_fresh v level) as Hfresh.
    destruct (bumped level (semver v)) as [[a b] c].
    apply new_Version_canonical_inv in Hv' as [-> _].
    now repeat split.
Qed.

Lemma bumpVersion_increments_witness :
  WellFormed {| raw := "v1.2.3"; semver := plainSemVer "1" "2" "3" |}
  /\ bumpVersion {| raw := "v1.2.3"; semver := plainSemVer "1" "2" "3" |}
       ReleaseType.patch = Ok (canonicalVersion (1, 2, 4))
  /\ bumpVersion {| raw := "v1.2.3"; semver := plainSemVer "1" "2" "3" |}
       ReleaseType.minor = Ok (canonicalVersion (1, 3, 0))
  /\ bumpVersion {| raw := "v1.2.3"; semver := plainSemVer "1" "2" "3" |}
       ReleaseType.major = Ok (canonicalVersion (2, 0, 0))
  /\ raw (canonicalVersion (1, 2, 4)) = "1.2.4"
  /\ raw (canonicalVersion (1, 3, 0)) = "1.3.0"
  /\ raw (canonicalVersion (2, 0, 0)) = "2.0.0"
  /\ bumpVersion
       {| raw := "edge";
          semver := {| semver.raw := "1.2.3-beta+b7";
                       semver.major := 1; semver.minor := 2; semver.patch := 3;
                       semver.prerelease := [semver.IdStr "beta"];
                       semver.build := ["b7"] |} |}
       ReleaseType.patch = Ok (canonicalVersion (1, 2, 4)).
Proof.
  assert (WellFormed {| raw := "v1.2.3"; semver := plainSemVer "1" "2" "3" |})
    as HW by (exists "1.2.3"; reflexivity).
  split; [exact HW|].
  split; [|split; [|split]].
  - apply (proj1 (bumpVersion_increments _ ReleaseType.patch HW)). reflexivity.
  - apply (proj1 (bumpVersion_increments _ ReleaseType.minor HW)). reflexivity.
  - apply (proj1 (bumpVersion_increments _ ReleaseType.major HW)). reflexivity.
  - do 3 (split; [reflexivity|]).
    assert (WellFormed
              {| raw := "edge";
                 semver := {| semver.raw := "1.2.3-beta+b7";
                              semver.major := 1; semver.minor := 2;
                              semver.patch := 3;
                              semver.prerelease := [semver.IdStr "beta"];
                              semver.build := ["b7"] |} |}) as HW'
      by (exists "1.2.3-beta+b7"; reflexivity).
    apply (proj1 (bumpVersion_increments _ ReleaseType.patch HW')).
    reflexivity.
Defined.

(** ** The run *)

Section RunFacts.

Lemma getOctokit_token (token : string) :
  token <> EmptyString -> getOctokit token = Ok {| auth := "token " ++ token |}.
Proof. destruct token; [contradiction | reflexivity]. Qed.

(** The run once the versions are retrieved: the outputs are those of the
    first ranked version, or of 0.0.0, and of its bump. *)
Lemma events_retrieved (env : Env) (versions : list Version) :
  getInput env "token" <> EmptyString ->
  retrieved env versions ->
  events env =
  snd (try_catch
         (currentVersion <~
            lift (match filterAndSortVersions versions (getInput env "prefix")
                          (String.eqb (getInput env "includePrereleases") "true")
                  with
                  | v :: _ => Ok v
                  | [] => new_Version "0.0.0"
                  end) ;;
          nextVersion <~
            lift (bumpVersion currentVersion
                    (getIncrementLevelFromTitle (titleOf env))) ;;
          _ <~ setOutput "currentVersion" (semver.raw (semver currentVersion)) ;;
          setOutput "nextVersion" (semver.raw (semver nextVersion)))
         (fun error => setFailed error) []).
Proof.
  intros Htok Hret. unfold events, run, try_catch, hbind at 1, lift at 1.
  unfold getOctokitClient. rewrite (getOctokit_token _ Htok).
  unfold hbind at 1, lift at 1.
  destruct Hret as [[Hs Hv] | [Hs Hv]]; rewrite Hs; cbn [String.eqb Ascii.eqb Bool.eqb];
    rewrite Hv; reflexivity.
Qed.

Lemma level_without_marker (title : string) :
  ~ Contains "(MAJOR)" title -> ~ Contains "(MINOR)" title ->
  getIncrementLevelFromTitle title = ReleaseType.patch.
Proof.
  intros HM Hm. unfold getIncrementLevelFromTitle.
  destruct (Js.includes title "(MAJOR)") eqn:E1;
    [now apply includes_spec in E1|].
  destruct (Js.includes title "(MINOR)") eqn:E2;
    [now apply includes_spec in E2|].
  now destruct (Js.includes title "(PATCH)").
Qed.

End RunFacts.

(** C7.  When the run retrieves its versions and none passes the filter
    (in particular when no label was retrieved at all), it does not fail,
    whatever the commit message is: it reports exactly two events, the
    current version 0.0.0 and the next version, which is 0.0.0 bumped at the
    level resolved from the commit message; with no marker in the commit
    message the next version is 0.0.1. *)
Theorem run_empty_candidates (env : Env) (versions : list Version) :
  getInput env "token" <> EmptyString ->
  retrieved env versions ->
  filterAndSortVersions versions (getInput env "prefix")
    (String.eqb (getInput env "includePrereleases") "true") = [] ->
  exists next,
    events env = [SetOutput "currentVersion" "0.0.0";
                  SetOutput "nextVersion" next]
    /\ (forall error, ~ In (SetFailed error) (events env))
    /\ next = match getIncrementLevelFromTitle (titleOf env) with
              | ReleaseType.major => "1.0.0"
              | ReleaseType.minor => "0.1.0"
              | ReleaseType.patch => "0.0.1"
              end
    /\ (NoMarker (titleOf env) -> next = "0.0.1").
Proof.
  intros Htok Hret Hempty.
  assert (events env
          = [SetOutput "currentVersion" "0.0.0";
             SetOutput "nextVersion"
               match getIncrementLevelFromTitle (titleOf env) with
               | ReleaseType.major => "1.0.0"
               | ReleaseType.minor => "0.1.0"
               | ReleaseType.patch => "0.0.1"
               end]) as Hev.
  { rewrite (events_retrieved env versions Htok Hret), Hempty.
    now destruct (getIncrementLevelFromTitle (titleOf env)). }
  eexists. split; [exact Hev|]. split; [|split; [reflexivity|]].
  - rewrite Hev. intros error [H|[H|[]]]; discriminate H.
  - intros (HM & Hm & _). now rewrite (level_without_marker _ HM Hm).
Qed.

Lemma run_empty_candidates_witness :
  events (scenarioEnv "tags" "v" "false" [] None)
  = [SetOutput "currentVersion" "0.0.0"; SetOutput "nextVersion" "0.0.1"]
  /\ events (scenarioEnv "releases" "v" "true" ["nightly"; "w1.0.0"]
               (Some "chore: tidy up"))
     = [SetOutput "currentVersion" "0.0.0"; SetOutput "nextVersion" "0.0.1"]
  /\ events (scenarioEnv "tags" "v" "false" [] (Some "(MAJOR) rewrite"))
     = [SetOutput "currentVersion" "0.0.0"; SetOutput "nextVersion" "1.0.0"].
Proof.
  split; [|split].
  - destruct (run_empty_candidates (scenarioEnv "tags" "v" "false" [] None) [])
      as (next & Hev & _ & _ & Hnext).
    + discriminate.
    + left. split; reflexivity.
    + reflexivity.
    + rewrite Hev, Hnext; [reflexivity|].
      repeat split; intros H; apply includes_spec in H; discriminate H.
  - destruct (run_empty_candidates
                (scenarioEnv "releases" "v" "true" ["nightly"; "w1.0.0"]
                   (Some "chore: tidy up"))
                [ {| raw := "nightly"; semver := zeroSemVer |};
                  {| raw := "w1.0.0"; semver := plainSemVer "1" "0" "0" |} ])
      as (next & Hev & _ & _ & Hnext).
    + discriminate.
    + right. split; reflexivity.
    + reflexivity.
    + rewrite Hev, Hnext; [reflexivity|].
      repeat split; intros H; apply includes_spec in H; discriminate H.
  - destruct (run_empty_candidates
                (scenarioEnv "tags" "v" "false" [] (Some "(MAJOR) rewrite")) [])
      as (next & Hev & _ & Hnext & _).
    + discriminate.
    + left. split; reflexivity.
    + reflexivity.
    + rewrite Hev, Hnext. reflexivity.
Defined.

(** C8.  When the source input is neither [tags] nor [releases], the run
    reports exactly one event, a failure, and sets no output; with a token
    present the failure is the error that names the rejected source. *)
Theorem run_rejects_unknown_source (env : Env) :
  getInput env "source" <> "tags" ->
  getInput env "source" <> "releases" ->
  exists error,
    events env = [SetFailed error]
    /\ (forall name value, ~ In (SetOutput name value) (events env))
    /\ (getInput env "token" <> EmptyString ->
        error = Error (getInput env "source" ++ " is not a valid value for "
                       ++ Js.dquote ++ "source" ++ Js.dquote)).
Proof.
  intros Ht Hr.
  apply String.eqb_neq in Ht, Hr.
  assert (forall e, (forall name value, ~ In (SetOutput name value) [SetFailed e]))
    as Hno.
  { intros e name value [H|[]]. discriminate H. }
  unfold events, run, try_catch, hbind at 1, lift at 1, getOctokitClient.
  destruct (getInput env "token") as [|c token] eqn:Htok; cbn [getOctokit].
  - eexists. split; [reflexivity|]. split; [apply Hno|]. now intros H.
  - unfold hbind at 1, lift at 1. rewrite Ht, Hr.
    eexists. split; [reflexivity|]. split; [apply Hno|]. reflexivity.
Qed.

Lemma run_rejects_unknown_source_witness :
  events (scenarioEnv "commits" "v" "false" ["v1.0.0"] (Some "fix (PATCH)"))
  = [SetFailed (Error ("commits is not a valid value for "
                       ++ Js.dquote ++ "source" ++ Js.dquote))].
Proof.
  destruct (run_rejects_unknown_source
              (scenarioEnv "commits" "v" "false" ["v1.0.0"] (Some "fix (PATCH)")))
    as (error & Hev & _ & Herr); [discriminate | discriminate |].
  rewrite Hev, Herr; [reflexivity | discriminate].
Defined.

(** C1.  On the labels v1.0.0, v1.1.0, v2.0.0-beta with prefix v,
    [includePrereleases] false and the commit message [fix (PATCH)], the run
    keeps all three labels, v2.0.0-beta as 2.0.0 with an empty prerelease,
    ranks it first, and emits currentVersion 2.0.0 and nextVersion 2.0.1. *)
Theorem scenario_A_outputs :
  mapM new_Version ["v1.0.0"; "v1.1.0"; "v2.0.0-beta"]
  = Ok [ {| raw := "v1.0.0"; semver := plainSemVer "1" "0" "0" |};
         {| raw := "v1.1.0"; semver := plainSemVer "1" "1" "0" |};
         {| raw := "v2.0.0-beta"; semver := plainSemVer "2" "0" "0" |} ]
  /\ filterAndSortVersions
       [ {| raw := "v1.0.0"; semver := plainSemVer "1" "0" "0" |};
         {| raw := "v1.1.0"; semver := plainSemVer "1" "1" "0" |};
         {| raw := "v2.0.0-beta"; semver := plainSemVer "2" "0" "0" |} ]
       "v" false
     = [ {| raw := "v2.0.0-beta"; semver := plainSemVer "2" "0" "0" |};
         {| raw := "v1.1.0"; semver := plainSemVer "1" "1" "0" |};
         {| raw := "v1.0.0"; semver := plainSemVer "1" "0" "0" |} ]
  /\ events (scenarioEnv "tags" "v" "false"
               ["v1.0.0"; "v1.1.0"; "v2.0.0-beta"] (Some "fix (PATCH)"))
     = [SetOutput "currentVersion" "2.0.0"; SetOutput "nextVersion" "2.0.1"].
Proof. repeat split; vm_compute; reflexivity. Qed.

(** C3.  On the same labels with [includePrereleases] true and the commit
    message [(MAJOR) rewrite], the label v2.0.0-beta ranks first, read as
    2.0.0, and the run emits currentVersion 2.0.0 and nextVersion 3.0.0. *)
Theorem scenario_B_outputs :
  filterAndSortVersions
    [ {| raw := "v1.0.0"; semver := plainSemVer "1" "0" "0" |};
      {| raw := "v1.1.0"; semver := plainSemVer "1" "1" "0" |};
      {| raw := "v2.0.0-beta"; semver := plainSemVer "2" "0" "0" |} ]
    "v" true
  = [ {| raw := "v2.0.0-beta"; semver := plainSemVer "2" "0" "0" |};
      {| raw := "v1.1.0"; semver := plainSemVer "1" "1" "0" |};
      {| raw := "v1.0.0"; semver := plainSemVer "1" "0" "0" |} ]
  /\ events (scenarioEnv "tags" "v" "true"
               ["v1.0.0"; "v1.1.0"; "v2.0.0-beta"] (Some "(MAJOR) rewrite"))
     = [SetOutput "currentVersion" "2.0.0"; SetOutput "nextVersion" "3.0.0"].
Proof. repeat split; vm_compute; reflexivity. Qed.

(** C9.  The constructor is not total: a label whose first
    digits.digits.digits substring has a leading zero, or a component above
    [MAX_SAFE_INTEGER], makes it throw, and the exception ends the run
    without any output. *)
Theorem Version_constructor_throws :
  new_Version "2024.01.15" = Throw (TypeError "Invalid Version: 2024.01.15")
  /\ new_Version "v01.2.3" = Throw (TypeError "Invalid Version: 01.2.3")
  /\ new_Version "build-9007199254740992.0.0"
     = Throw (TypeError "Invalid major version")
  /\ events (scenarioEnv "tags" EmptyString "false"
               ["v1.0.0"; "2024.01.15"; "v1.1.0"] None)
     = [SetFailed (TypeError "Invalid Version: 2024.01.15")].
Proof. repeat split; reflexivity. Qed.

(* ================================================================== *)
(** * Further properties *)

(** ** Further properties of the bumper *)

Section BumpOrder.

Lemma mainOf_mainChars (a b c : N) :
  Js.forallb isMainChar (mainOf (Js.ofNumber a) (Js.ofNumber b) (Js.ofNumber c))
  = true.
Proof.
  assert (forall n, Js.forallb isMainChar (Js.ofNumber n) = true) as H.
  { intros n. apply (forallb_impl Js.isDigit); [|apply isNumeric_inv; auto with numerals].
    intros ch Hc. unfold isMainChar. now rewrite Hc. }
  unfold mainOf. rewrite !forallb_append. cbn [Js.forallb].
  now rewrite !H.
Qed.

Lemma format_bumped_differs (sv : semver.SemVer) (level : ReleaseType.t) :
  String.eqb (semver.format sv)
    (semver.format (semver (canonicalVersion (bumped level sv)))) = false.
Proof.
  apply String.eqb_neq. intros E.
  pose proof (bumped_changes level sv) as Hne.
  destruct (bumped level sv) as [[a b] c].
  cbn [canonicalVersion semver] in E.
  match type of E with
  | _ = semver.format ?r =>
      change (semver.format r)
        with (mainOf (Js.ofNumber a) (Js.ofNumber b) (Js.ofNumber c)) in E
  end.
  unfold semver.format in E.
  destruct (semver.prerelease sv) as [|i pre].
  - apply mainOf_inj in E as (E1 & E2 & E3); auto with numerals.
    apply ofNumber_inj in E1, E2, E3. apply Hne. unfold triple. congruence.
  - pose proof (mainOf_mainChars a b c) as Hm. rewrite <- E in Hm.
    fold (mainOf (Js.ofNumber (semver.major sv)) (Js.ofNumber (semver.minor sv))
            (Js.ofNumber (semver.patch sv))) in Hm.
    rewrite forallb_append in Hm. apply andb_true_iff in Hm as [_ Hm].
    discriminate Hm.
Qed.

Lemma compareMain_bumped (sv : semver.SemVer) (level : ReleaseType.t) :
  semver.compareMain (semver (canonicalVersion (bumped level sv))) sv = 1%Z.
Proof.
  assert (forall n, (n + 1 =? n) = false) as He by (intros; apply N.eqb_neq; lia).
  assert (forall n, (n + 1 <? n) = false) as Hl by (intros; apply N.ltb_ge; lia).
  unfold semver.compareMain, semver.orElse. rewrite !compareNum.
  destruct level; cbn [bumped canonicalVersion semver semver.major semver.minor
                         semver.patch];
    rewrite ?N.eqb_refl, ?He, ?Hl; cbn; rewrite ?He, ?Hl; reflexivity.
Qed.

(** The canonical version of the incremented numbers ranks strictly above
    the version it was computed from. *)
Lemma compare_bumped (sv : semver.SemVer) (level : ReleaseType.t) :
  semver.compare (semver (canonicalVersion (bumped level sv))) sv = 1%Z.
Proof.
  unfold semver.compare. rewrite format_bumped_differs.
  unfold semver.orElse. now rewrite compareMain_bumped.
Qed.

Lemma bumpVersion_Ok_inv (v v' : Version) (level : ReleaseType.t) :
  WellFormed v -> bumpVersion v level = Ok v' ->
  v' = canonicalVersion (bumped level (semver v))
  /\ let '(a, b, c) := bumped level (semver v) in
     a <= semver.MAX_SAFE_INTEGER
     /\ b <= semver.MAX_SAFE_INTEGER
     /\ c <= semver.MAX_SAFE_INTEGER.
Proof.
  intros HW. rewrite (bumpVersion_eq v level HW).
  destruct (bumped level (semver v)) as [[a b] c].
  apply new_Version_canonical_inv.
Qed.

End BumpOrder.

(** X1.  Bumping strictly increases: whenever [bumpVersion] returns a
    [Version] for a well-formed input, [semver.compare] ranks the result
    above the input (and the input below the result), whatever the level and
    whatever prerelease or build the input carries. *)
Theorem bumpVersion_strictly_increases
  (v v' : Version) (level : ReleaseType.t) :
  WellFormed v ->
  bumpVersion v level = Ok v' ->
  semver.compare (semver v') (semver v) = 1%Z
  /\ semver.compare (semver v) (semver v') = (-1)%Z.
Proof.
  intros HW H. apply (bumpVersion_Ok_inv _ _ _ HW) in H as [-> _].
  rewrite (compare_antisym _ (semver v)), compare_bumped. now split.
Qed.

Lemma bumpVersion_strictly_increases_witness :
  bumpVersion {| raw := "v1.9.9"; semver := plainSemVer "1" "9" "9" |}
    ReleaseType.minor = Ok (canonicalVersion (1, 10, 0))
  /\ semver.compare (semver (canonicalVersion (1, 10, 0)))
       (plainSemVer "1" "9" "9") = 1%Z.
Proof.
  assert (bumpVersion {| raw := "v1.9.9"; semver := plainSemVer "1" "9" "9" |}
            ReleaseType.minor = Ok (canonicalVersion (1, 10, 0))) as H
    by reflexivity.
  split; [exact H|].
  apply (bumpVersion_strictly_increases
           {| raw := "v1.9.9"; semver := plainSemVer "1" "9" "9" |} _
           ReleaseType.minor); [|exact H].
  exists "1.9.9". reflexivity.
Defined.

Section BumpReaders.

Lemma numeric_length_below (s : string) :
  semver.isNumericIdentifier s = true ->
  Js.toNumber s < 10 ^ 16 ->
  (String.length s <= 16)%nat.
Proof.
  destruct s as [|c s]; [discriminate|].
  cbn [semver.isNumericIdentifier]. intros H Hle.
  apply andb_true_iff in H as [H Hz]. apply andb_true_iff in H as [Hc Hs].
  apply orb_true_iff in Hz as [Hz|Hz].
  - apply negb_true_iff in Hz.
    pose proof (digit_nonzero c Hc Hz) as H1.
    pose proof (toNumber_acc_lower s (10 * 0 + (Js.code c - 48))) as Hlow.
    unfold Js.toNumber in Hle. cbn [Js.toNumber_acc] in Hle.
    cbn [String.length].
    destruct (Nat.le_gt_cases (String.length s) 15) as [|Hbig]; [lia|].
    exfalso.
    assert (10 ^ 16 <= 10 ^ N.of_nat (String.length s)) as Hpow
      by (apply N.pow_le_mono_r; lia).
    nia.
  - destruct s; [cbn; lia | discriminate].
Qed.

Lemma ofNumber_length (n : N) :
  n < 10 ^ 16 -> (String.length (Js.ofNumber n) <= 16)%nat.
Proof.
  intros H. apply numeric_length_below; [auto with numerals|].
  now rewrite toNumber_ofNumber.
Qed.

Lemma coerceComponent_digits (d rest : string) :
  semver.isNumeric d = true ->
  (String.length d <= 16)%nat ->
  startsOutside Js.isDigit rest = true ->
  semver.coerceComponent (String "." (d ++ rest)) = Some (d, rest).
Proof.
  intros Hd Hl Hr. destruct (isNumeric_inv _ Hd) as (F & c & t & E & _).
  unfold semver.coerceComponent. rewrite (span_append _ _ _ F Hr).
  replace (semver.nonEmpty d) with true by (now rewrite E).
  apply Nat.leb_le in Hl. unfold semver.MAX_SAFE_COMPONENT_LENGTH.
  now rewrite Hl.
Qed.

Lemma coerce_scan_main (d1 d2 d3 : string) :
  semver.isNumeric d1 = true ->
  semver.isNumeric d2 = true ->
  semver.isNumeric d3 = true ->
  (String.length d1 <= 16)%nat ->
  (String.length d2 <= 16)%nat ->
  (String.length d3 <= 16)%nat ->
  semver.coerce_scan true (mainOf d1 d2 d3) = Some (d1, Some d2, Some d3).
Proof.
  intros H1 H2 H3 L1 L2 L3.
  destruct (isNumeric_inv _ H1) as (F1 & c & t & E & C).
  assert (semver.coerce_here (mainOf d1 d2 d3) = Some (d1, Some d2, Some d3))
    as Hh.
  { unfold semver.coerce_here, mainOf.
    rewrite (span_append Js.isDigit d1) by (assumption || reflexivity).
    replace (semver.nonEmpty d1) with true by (now rewrite E).
    apply Nat.leb_le in L1. unfold semver.MAX_SAFE_COMPONENT_LENGTH.
    rewrite L1. cbn [andb String.append].
    rewrite (coerceComponent_digits d2 (String "." d3)) by auto.
    rewrite <- (append_nil_r d3) at 1.
    now rewrite (coerceComponent_digits d3 EmptyString) by auto. }
  unfold mainOf in *. rewrite E in *. cbn [String.append semver.coerce_scan].
  rewrite C. cbn [String.append] in Hh. now rewrite Hh.
Qed.

(** [semver.coerce] reads a canonical text [a.b.c] in range as the
    [SemVer] constructor does. *)
Lemma coerce_canonical (a b c : N) :
  a <= semver.MAX_SAFE_INTEGER ->
  b <= semver.MAX_SAFE_INTEGER ->
  c <= semver.MAX_SAFE_INTEGER ->
  semver.coerce (raw (canonicalVersion (a, b, c)))
  = Some (semver (canonicalVersion (a, b, c))).
Proof.
  intros La Lb Lc.
  assert (forall n, n <= semver.MAX_SAFE_INTEGER -> n < 10 ^ 16) as Hb
    by (unfold semver.MAX_SAFE_INTEGER; intros n Hn;
        change (10 ^ 16) with 10000000000000000; lia).
  unfold semver.coerce. cbn [canonicalVersion raw semver].
  rewrite coerce_scan_main; auto using ofNumber_length with numerals.
  cbn [semver.orZero]. unfold semver.parse.
  fold (mainOf (Js.ofNumber a) (Js.ofNumber b) (Js.ofNumber c)).
  rewrite new_SemVer_canonical;
    rewrite ?toNumber_ofNumber; auto with numerals.
Qed.

Lemma prefix_empty (s : string) : String.prefix EmptyString s = true.
Proof. now destruct s. Qed.

End BumpReaders.

(** X2.  The output of [bumpVersion] reads back as itself: for a
    well-formed input, the [Version] constructor applied to the raw text of
    the returned [Version] returns that [Version] again, the [SemVer]
    constructor and [semver.coerce] both read its raw text as its semantic
    version, and the filter keeps it under the empty prefix for either value
    of [includePrereleases]. *)
Theorem bumpVersion_result_reads_back
  (v v' : Version) (level : ReleaseType.t) :
  WellFormed v ->
  bumpVersion v level = Ok v' ->
  new_Version (raw v') = Ok v'
  /\ semver.new_SemVer (raw v') = Ok (semver v')
  /\ semver.coerce (raw v') = Some (semver v')
  /\ forall includePrereleases,
       filterCheck EmptyString includePrereleases v' = true.
Proof.
  intros HW H. apply (bumpVersion_Ok_inv _ _ _ HW) in H as [-> Hr].
  destruct (bumped level (semver v)) as [[a b] c]. destruct Hr as (La & Lb & Lc).
  pose proof (coerce_canonical a b c La Lb Lc) as Hc.
  split; [now apply new_Version_canonical|]. split; [|split; [exact Hc|]].
  - cbn [canonicalVersion raw semver].
    rewrite new_SemVer_canonical;
      rewrite ?toNumber_ofNumber; auto with numerals.
  - intros flag. unfold filterCheck. rewrite Hc.
    unfold Js.startsWith. rewrite prefix_empty.
    cbn [canonicalVersion semver semver.build semver.prerelease length].
    now destruct flag.
Qed.

Lemma bumpVersion_result_reads_back_witness :
  bumpVersion {| raw := "rel-3.4.5"; semver := plainSemVer "3" "4" "5" |}
    ReleaseType.major = Ok (canonicalVersion (4, 0, 0))
  /\ new_Version "4.0.0" = Ok (canonicalVersion (4, 0, 0))
  /\ semver.coerce "4.0.0" = Some (semver (canonicalVersion (4, 0, 0))).
Proof.
  assert (bumpVersion {| raw := "rel-3.4.5"; semver := plainSemVer "3" "4" "5" |}
            ReleaseType.major = Ok (canonicalVersion (4, 0, 0))) as H
    by reflexivity.
  assert (WellFormed {| raw := "rel-3.4.5"; semver := plainSemVer "3" "4" "5" |})
    as HW by (exists "3.4.5"; reflexivity).
  destruct (bumpVersion_result_reads_back _ _ _ HW H) as (H1 & _ & H3 & _).
  split; [exact H|]. split; [exact H1 | exact H3].
Defined.

(** X3.  At the bound the bump fails: for a well-formed input whose
    component to increment equals [MAX_SAFE_INTEGER], [bumpVersion] throws
    the [TypeError] of the [SemVer] constructor that names that component,
    and returns no [Version]. *)
Theorem bumpVersion_overflow (v : Version) (level : ReleaseType.t) :
  WellFormed v ->
  component level (semver v) = semver.MAX_SAFE_INTEGER ->
  bumpVersion v level = Throw (invalidComponent level).
Proof.
  intros HW Hmax. rewrite (bumpVersion_eq v level HW).
  destruct (WellFormed_inv v HW) as (_ & _ & _ & _ & _ & L1 & L2 & L3).
  assert (forall n, n <= semver.MAX_SAFE_INTEGER + 1 -> n < 10 ^ 16) as Hb
    by (unfold semver.MAX_SAFE_INTEGER; intros n Hn;
        change (10 ^ 16) with 10000000000000000; lia).
  assert (forall n, n <= semver.MAX_SAFE_INTEGER ->
                    (semver.MAX_SAFE_INTEGER <? n) = false) as Hin
    by (intros; now apply N.ltb_ge).
  assert ((semver.MAX_SAFE_INTEGER <? semver.MAX_SAFE_INTEGER + 1) = true)
    as Hout by reflexivity.
  assert ((semver.MAX_SAFE_INTEGER <? 0) = false) as H0 by reflexivity.
  assert (forall a b c,
             a <= semver.MAX_SAFE_INTEGER + 1 ->
             b <= semver.MAX_SAFE_INTEGER + 1 ->
             c <= semver.MAX_SAFE_INTEGER + 1 ->
             (semver.MAX_LENGTH
              <? String.length (mainOf (Js.ofNumber a) (Js.ofNumber b)
                                  (Js.ofNumber c)))%nat = false) as Hlen.
  { intros a b c Ha Hb' Hc. apply Nat.ltb_ge.
    pose proof (ofNumber_length a (Hb a Ha)).
    pose proof (ofNumber_length b (Hb b Hb')).
    pose proof (ofNumber_length c (Hb c Hc)).
    unfold mainOf, semver.MAX_LENGTH. rewrite !length_append.
    cbn [String.length]. lia. }
  assert (0 <= semver.MAX_SAFE_INTEGER + 1) as Hz by lia.
  assert (semver.MAX_SAFE_INTEGER + 1 <= semver.MAX_SAFE_INTEGER + 1) as Hm
    by lia.
  assert (forall n, n <= semver.MAX_SAFE_INTEGER ->
                    n <= semver.MAX_SAFE_INTEGER + 1) as Hw by (intros; lia).
  destruct level; cbn [component] in Hmax;
    cbn [bumped canonicalVersion raw invalidComponent]; rewrite Hmax;
    rewrite new_Version_eq, exec_mainOf by auto with numerals;
    rewrite new_SemVer_main by auto with numerals;
    rewrite Hlen by auto; rewrite !ofNumber_numeric; cbn [andb];
    rewrite !toNumber_ofNumber, ?Hmax, ?Hout, ?H0, ?(Hin _ L1), ?(Hin _ L2);
    reflexivity.
Qed.

Lemma bumpVersion_overflow_witness :
  bumpVersion
    {| raw := "v1.9007199254740991.0";
       semver := plainSemVer "1" "9007199254740991" "0" |}
    ReleaseType.minor = Throw (TypeError "Invalid minor version").
Proof.
  apply (bumpVersion_overflow
           {| raw := "v1.9007199254740991.0";
              semver := plainSemVer "1" "9007199254740991" "0" |}
           ReleaseType.minor).
  - exists "1.9007199254740991.0". reflexivity.
  - reflexivity.
Defined.

(** ** Further properties of the parser and the filter *)

Section ParserEdge.

Lemma exec_no_digit (label : string) :
  Js.forallb (fun c => negb (Js.isDigit c)) label = true ->
  VersionRegex.exec label = None.
Proof.
  intros H. rewrite <- (append_nil_r label), (exec_skip _ _ H). reflexivity.
Qed.

Lemma coerce_scan_no_digit (boundary : bool) (label : string) :
  Js.forallb (fun c => negb (Js.isDigit c)) label = true ->
  semver.coerce_scan boundary label = None.
Proof.
  revert boundary. induction label as [|c s IH]; intros boundary H;
    cbn [semver.coerce_scan]; [reflexivity|].
  cbn [Js.forallb] in H. apply andb_true_iff in H as [Hc Hs].
  apply negb_true_iff in Hc. rewrite Hc. now apply IH.
Qed.

End ParserEdge.

(** X4.  A label without any digit is never an error and never a
    candidate: the constructor returns a [Version] with the semantic version
    0.0.0, and the filter rejects that [Version] for every prefix and either
    value of [includePrereleases], so [filterAndSortVersions] drops it. *)
Theorem label_without_digit_is_dropped (label : string) :
  Js.forallb (fun c => negb (Js.isDigit c)) label = true ->
  new_Version label = Ok {| raw := label; semver := zeroSemVer |}
  /\ forall prefix includePrereleases,
       filterCheck prefix includePrereleases
         {| raw := label; semver := zeroSemVer |} = false
       /\ filterAndSortVersions [ {| raw := label; semver := zeroSemVer |} ]
            prefix includePrereleases = [].
Proof.
  intros H. split.
  - now rewrite new_Version_eq, (exec_no_digit _ H).
  - intros prefix flag.
    assert (filterCheck prefix flag {| raw := label; semver := zeroSemVer |}
            = false) as Hf.
    { unfold filterCheck, semver.coerce. cbn [raw].
      rewrite (coerce_scan_no_digit true _ H).
      now destruct (negb flag && _). }
    split; [exact Hf|]. unfold filterAndSortVersions. cbn [filter].
    now rewrite Hf.
Qed.

Lemma label_without_digit_is_dropped_witness :
  new_Version "latest-stable"
  = Ok {| raw := "latest-stable"; semver := zeroSemVer |}
  /\ filterCheck "latest" true
       {| raw := "latest-stable"; semver := zeroSemVer |} = false.
Proof.
  destruct (label_without_digit_is_dropped "latest-stable" eq_refl)
    as [H1 H2].
  split; [exact H1 | exact (proj1 (H2 "latest" true))].
Defined.

(** X5.  When the constructor throws.  For a label whose first match of
    the regular expression is [d1.d2.d3], the constructor returns a
    [Version] exactly when each of [d1], [d2], [d3] is written without a
    leading zero and is at most [MAX_SAFE_INTEGER]; otherwise it throws. *)
Theorem new_Version_returns_iff
  (label pre d1 d2 d3 post : string) :
  FirstMatch label pre (mainOf d1 d2 d3) post ->
  semver.isNumeric d1 = true ->
  semver.isNumeric d2 = true ->
  semver.isNumeric d3 = true ->
  (exists v, new_Version label = Ok v)
  <-> (semver.isNumericIdentifier d1 = true
       /\ semver.isNumericIdentifier d2 = true
       /\ semver.isNumericIdentifier d3 = true
       /\ Js.toNumber d1 <= semver.MAX_SAFE_INTEGER
       /\ Js.toNumber d2 <= semver.MAX_SAFE_INTEGER
       /\ Js.toNumber d3 <= semver.MAX_SAFE_INTEGER).
Proof.
  intros HF H1 H2 H3. rewrite new_Version_eq, (exec_FirstMatch _ _ _ _ HF).
  split.
  - intros [v Hv].
    destruct (semver.new_SemVer (mainOf d1 d2 d3)) as [sv|] eqn:E;
      [|discriminate].
    now apply new_SemVer_main_plain in E as (_ & E).
  - intros (N1 & N2 & N3 & L1 & L2 & L3).
    rewrite new_SemVer_canonical by assumption. eauto.
Qed.

Lemma new_Version_returns_iff_witness :
  (exists v, new_Version "app/7.04.1" = Ok v) <->
  (semver.isNumericIdentifier "7" = true
   /\ semver.isNumericIdentifier "04" = true
   /\ semver.isNumericIdentifier "1" = true
   /\ Js.toNumber "7" <= semver.MAX_SAFE_INTEGER
   /\ Js.toNumber "04" <= semver.MAX_SAFE_INTEGER
   /\ Js.toNumber "1" <= semver.MAX_SAFE_INTEGER).
Proof.
  apply (new_Version_returns_iff "app/7.04.1" "app/" "7" "04" "1" EmptyString).
  - apply FirstMatch_check; reflexivity.
  - reflexivity.
  - reflexivity.
  - reflexivity.
Defined.

(** X16.  What the constructor reads.  When the first substring of the
    label that reads digits.digits.digits is [a.b.c] with each number
    printed without leading zeros and at most [MAX_SAFE_INTEGER], the
    constructor returns the [Version] whose raw text is the label and whose
    major, minor and patch are [a], [b] and [c], with empty prerelease and
    build, whatever text stands before or after that substring; when the
    label has no such substring at all, the semantic version is exactly
    0.0.0 with empty prerelease and build. *)
Theorem Version_reads_first_match (label : string) :
  (forall pre a b c post,
      FirstMatch label pre
        (mainOf (Js.ofNumber a) (Js.ofNumber b) (Js.ofNumber c)) post ->
      a <= semver.MAX_SAFE_INTEGER ->
      b <= semver.MAX_SAFE_INTEGER ->
      c <= semver.MAX_SAFE_INTEGER ->
      new_Version label =
      Ok {| raw := label;
            semver :=
              {| semver.raw :=
                   mainOf (Js.ofNumber a) (Js.ofNumber b) (Js.ofNumber c);
                 semver.major := a; semver.minor := b; semver.patch := c;
                 semver.prerelease := []; semver.build := [] |} |})
  /\ ((forall pre m post, ~ MatchAt label pre m post) ->
      new_Version label = Ok {| raw := label; semver := zeroSemVer |}).
Proof.
  split.
  - intros pre a b c post HF La Lb Lc.
    rewrite new_Version_eq, (exec_FirstMatch _ _ _ _ HF).
    rewrite new_SemVer_canonical;
      rewrite ?toNumber_ofNumber; auto using ofNumber_numeric.
  - intros Hno. apply exec_None in Hno.
    now rewrite new_Version_eq, Hno.
Qed.

Lemma Version_reads_first_match_witness :
  FirstMatch "release-2-v1.20.3-rc.1" "release-2-v" "1.20.3" "-rc.1"
  /\ new_Version "release-2-v1.20.3-rc.1"
     = Ok {| raw := "release-2-v1.20.3-rc.1";
             semver := {| semver.raw := "1.20.3";
                          semver.major := 1; semver.minor := 20;
                          semver.patch := 3;
                          semver.prerelease := []; semver.build := [] |} |}
  /\ new_Version "nightly"
     = Ok {| raw := "nightly"; semver := zeroSemVer |}.
Proof.
  assert (FirstMatch "release-2-v1.20.3-rc.1" "release-2-v" "1.20.3" "-rc.1") as HF
    by (apply FirstMatch_check; reflexivity).
  split; [exact HF|]. split.
  - apply (proj1 (Version_reads_first_match "release-2-v1.20.3-rc.1")
             "release-2-v" 1 20 3 "-rc.1" HF); discriminate.
  - apply (proj2 (Version_reads_first_match "nightly")).
    apply exec_None. reflexivity.
Defined.

Section FilterOrder.

Lemma descending_antisym (x y : Version) :
  descending y x = (- descending x y)%Z.
Proof. apply compare_antisym. Qed.

Lemma Constructed_plain (v : Version) :
  Constructed v -> semver.prerelease (semver v) = [].
Proof. intros [label H]. now apply new_Version_plain in H. Qed.

(** In a sorted list of constructor-built versions the first element ranks
    at least as high as every element. *)
Lemma sorted_head_max (x : Version) (l : list Version) :
  Forall Constructed (x :: l) ->
  Sorted.Sorted (inOrder descending) (x :: l) ->
  Forall (ranksAtLeast x) (x :: l).
Proof.
  intros Hc Hs. constructor.
  - unfold ranksAtLeast. destruct (compare_total (semver x) (semver x)); assumption.
  - revert x Hc Hs. induction l as [|y l IH]; intros x Hc Hs; [constructor|].
    apply Sorted.Sorted_inv in Hs as [Hs Hhd].
    apply Sorted.HdRel_inv in Hhd.
    constructor; [exact Hhd|].
    inversion Hc as [|? ? Hx Hc']; subst.
    specialize (IH y Hc' Hs).
    apply Forall_forall. intros z Hz. rewrite Forall_forall in IH.
    specialize (IH z Hz). unfold ranksAtLeast, inOrder, descending in *.
    rewrite Forall_forall in Hc'.
    apply (compare_plain_trans _ (semver y));
      auto using Constructed_plain, in_cons, in_eq.
Qed.

Lemma filterCheck_spec (prefix : string) (flag : bool) (v : Version) :
  filterCheck prefix flag v = true <->
  semver.coerce (raw v) <> None
  /\ (flag = true
      \/ (semver.prerelease (semver v) = [] /\ semver.build (semver v) = []))
  /\ exists rest, raw v = prefix ++ rest.
Proof.
  unfold filterCheck, Js.startsWith. rewrite <- prefix_spec.
  destruct (semver.coerce (raw v)) as [sv|];
    destruct flag;
    destruct (semver.build (semver v)); destruct (semver.prerelease (semver v));
    destruct (String.prefix prefix (raw v)); cbn;
    split; try discriminate; try (intros _; repeat split; auto; discriminate);
    intros (H1 & H2 & H3); try discriminate; try now destruct H1.
  all: destruct H2 as [H2 | [H2 H2']]; discriminate.
Qed.

End FilterOrder.

(** X6.  What [filterAndSortVersions] keeps.  A [Version] is in the output
    exactly when it is in the input, [semver.coerce] finds a version in its
    raw label, its raw label starts with the prefix, and, unless
    [includePrereleases] is set, its semantic version has neither
    prerelease identifiers nor build metadata.  The output is a
    rearrangement of the kept elements, so nothing is duplicated or
    invented and it is never longer than the input. *)
Theorem filterAndSortVersions_keeps
  (versions : list Version) (prefix : string) (includePrereleases : bool) :
  (forall v,
      In v (filterAndSortVersions versions prefix includePrereleases) <->
      In v versions
      /\ semver.coerce (raw v) <> None
      /\ (includePrereleases = true
          \/ (semver.prerelease (semver v) = []
              /\ semver.build (semver v) = []))
      /\ exists rest, raw v = prefix ++ rest)
  /\ Permutation
       (filter (filterCheck prefix includePrereleases) versions)
       (filterAndSortVersions versions prefix includePrereleases)
  /\ (length (filterAndSortVersions versions prefix includePrereleases)
      <= length versions)%nat.
Proof.
  assert (Permutation
            (filter (filterCheck prefix includePrereleases) versions)
            (filterAndSortVersions versions prefix includePrereleases)) as HP
    by apply (sort_permutation descending).
  split; [|split; [exact HP|]].
  - intros v. rewrite <- filterCheck_spec, <- filter_In. split; intros H.
    + now apply (Permutation_in _ (Permutation_sym HP)).
    + now apply (Permutation_in _ HP).
  - rewrite <- (Permutation_length HP). apply filter_length_le.
Qed.

(** X7.  For input versions built by the constructor, the output of
    [filterAndSortVersions] is in descending order: of two neighbours the
    later one never ranks above the earlier one; and the first element of
    the output, which the run takes as the current version, ranks at least
    as high as every element of the output. *)
Theorem filterAndSortVersions_descending
  (versions : list Version) (prefix : string) (includePrereleases : bool) :
  Forall Constructed versions ->
  Sorted.Sorted ranksAtLeast
    (filterAndSortVersions versions prefix includePrereleases)
  /\ (forall current rest,
        filterAndSortVersions versions prefix includePrereleases
        = current :: rest ->
        forall v,
          In v (filterAndSortVersions versions prefix includePrereleases) ->
          ranksAtLeast current v).
Proof.
  intros Hc.
  assert (Sorted.Sorted (inOrder descending)
            (filterAndSortVersions versions prefix includePrereleases)) as HS
    by apply (sort_sorted descending descending_antisym).
  split; [exact HS|].
  intros current rest E v Hv.
  assert (Forall Constructed
            (filterAndSortVersions versions prefix includePrereleases)) as Hc'.
  { apply sort_Forall. apply Forall_forall. intros x Hx.
    apply filter_In in Hx as [Hx _]. rewrite Forall_forall in Hc. auto. }
  rewrite E in *.
  pose proof (sorted_head_max current rest Hc' HS) as Hmax.
  rewrite Forall_forall in Hmax. now apply Hmax.
Qed.

Lemma filterAndSortVersions_descending_witness :
  filterAndSortVersions
    [ {| raw := "v1.2.0"; semver := plainSemVer "1" "2" "0" |};
      {| raw := "v1.10.0"; semver := plainSemVer "1" "10" "0" |};
      {| raw := "v1.9.3"; semver := plainSemVer "1" "9" "3" |} ] "v" false
  = [ {| raw := "v1.10.0"; semver := plainSemVer "1" "10" "0" |};
      {| raw := "v1.9.3"; semver := plainSemVer "1" "9" "3" |};
      {| raw := "v1.2.0"; semver := plainSemVer "1" "2" "0" |} ]
  /\ ranksAtLeast {| raw := "v1.10.0"; semver := plainSemVer "1" "10" "0" |}
       {| raw := "v1.9.3"; semver := plainSemVer "1" "9" "3" |}.
Proof.
  assert (filterAndSortVersions
    [ {| raw := "v1.2.0"; semver := plainSemVer "1" "2" "0" |};
      {| raw := "v1.10.0"; semver := plainSemVer "1" "10" "0" |};
      {| raw := "v1.9.3"; semver := plainSemVer "1" "9" "3" |} ] "v" false
  = [ {| raw := "v1.10.0"; semver := plainSemVer "1" "10" "0" |};
      {| raw := "v1.9.3"; semver := plainSemVer "1" "9" "3" |};
      {| raw := "v1.2.0"; semver := plainSemVer "1" "2" "0" |} ]) as E
    by reflexivity.
  split; [exact E|].
  assert (Forall Constructed
    [ {| raw := "v1.2.0"; semver := plainSemVer "1" "2" "0" |};
      {| raw := "v1.10.0"; semver := plainSemVer "1" "10" "0" |};
      {| raw := "v1.9.3"; semver := plainSemVer "1" "9" "3" |} ]) as HC
    by (apply (mapM_Constructed ["v1.2.0"; "v1.10.0"; "v1.9.3"]); reflexivity).
  apply (proj2 (filterAndSortVersions_descending _ "v" false HC) _ _ E).
  rewrite E. right. left. reflexivity.
Defined.

(** ** Further properties of the retrieval and the run *)

Section Retrieval.

Lemma mapM_raw (labels : list string) (versions : list Version) :
  mapM new_Version labels = Ok versions -> map raw versions = labels.
Proof.
  revert versions. induction labels as [|label labels IH]; cbn; intros versions H.
  - now injection H as <-.
  - destruct (new_Version label) as [v|] eqn:Hv; [|discriminate].
    destruct (mapM new_Version labels) as [vs|]; [|discriminate].
    cbn in H. injection H as <-. cbn.
    apply new_Version_Ok_inv in Hv as [-> _]. f_equal. now apply IH.
Qed.

Lemma mapM_first_throw (good rest : list string) (bad : string) (e : JsError) :
  Forall (fun l => exists v, new_Version l = Ok v) good ->
  new_Version bad = Throw e ->
  mapM new_Version (good ++ bad :: rest) = Throw e.
Proof.
  intros Hg Hb. induction Hg as [|l good [v Hv] Hg IH]; cbn.
  - now rewrite Hb.
  - now rewrite Hv, IH.
Qed.

Lemma split_no_sep (sep : ascii) (s : string) :
  Js.forallb (fun c => negb (Ascii.eqb c sep)) s = true ->
  Js.split sep s = [s].
Proof.
  induction s as [|c s IH]; cbn; [reflexivity|].
  intros H. apply andb_true_iff in H as [Hc Hs].
  apply negb_true_iff in Hc. now rewrite Hc, IH.
Qed.

Lemma split_at_sep (sep : ascii) (a b : string) :
  Js.forallb (fun c => negb (Ascii.eqb c sep)) a = true ->
  Js.split sep (a ++ String sep b) = a :: Js.split sep b.
Proof.
  induction a as [|c a IH]; cbn.
  - intros _. now rewrite Ascii.eqb_refl.
  - intros H. apply andb_true_iff in H as [Hc Ha].
    apply negb_true_iff in Hc. now rewrite Hc, IH.
Qed.

Lemma getVersions_retrieved (env : Env) (versions : list Version) :
  retrieved env versions ->
  exists labels,
    fetched env labels /\ mapM new_Version labels = Ok versions.
Proof.
  unfold retrieved, getVersionsFromTags, getVersionsFromReleases, fetched.
  fold (tagsRoute env). fold (releasesRoute env).
  intros [[Hs H] | [Hs H]].
  - destruct (paginate env (tagsRoute env)) as [res|] eqn:E; [|discriminate].
    exists (orEmpty res). split; [|exact H]. exists res. auto.
  - destruct (paginate env (releasesRoute env)) as [res|] eqn:E; [|discriminate].
    exists (orEmpty res). split; [|exact H]. exists res. auto.
Qed.

End Retrieval.

(** X8.  [getVersionsFromTags] and [getVersionsFromReleases] keep the
    labels: when either returns, it returns one [Version] per name that the
    API answered with, in the same order, each with that name as its raw
    label and built by the constructor; an answer of [null] gives the empty
    list.  When the request fails, the failure is thrown on unchanged. *)
Theorem getVersions_keep_labels (env : Env) (octokit : Octokit) :
  (forall versions,
      getVersionsFromTags env octokit = Ok versions ->
      exists res,
        paginate env (tagsRoute env) = Ok res
        /\ map raw versions = orEmpty res
        /\ Forall Constructed versions)
  /\ (forall versions,
         getVersionsFromReleases env octokit = Ok versions ->
         exists res,
           paginate env (releasesRoute env) = Ok res
           /\ map raw versions = orEmpty res
           /\ Forall Constructed versions)
  /\ (paginate env (tagsRoute env) = Ok None ->
      getVersionsFromTags env octokit = Ok [])
  /\ (paginate env (releasesRoute env) = Ok None ->
      getVersionsFromReleases env octokit = Ok [])
  /\ (forall e, paginate env (tagsRoute env) = Throw e ->
                getVersionsFromTags env octokit = Throw e)
  /\ (forall e, paginate env (releasesRoute env) = Throw e ->
                getVersionsFromReleases env octokit = Throw e).
Proof.
  unfold getVersionsFromTags, getVersionsFromReleases.
  fold (tagsRoute env). fold (releasesRoute env).
  repeat split.
  - intros versions H.
    destruct (paginate env (tagsRoute env)) as [res|]; [|discriminate].
    exists res. cbn [bind] in H.
    eauto using mapM_raw, mapM_Constructed.
  - intros versions H.
    destruct (paginate env (releasesRoute env)) as [res|]; [|discriminate].
    exists res. cbn [bind] in H.
    eauto using mapM_raw, mapM_Constructed.
  - now intros ->.
  - now intros ->.
  - now intros e ->.
  - now intros e ->.
Qed.

Lemma getVersions_keep_labels_witness :
  getVersionsFromTags (scenarioEnv "tags" "v" "false" ["v1.0.0"; "junk"] None)
    {| auth := "token ghs_token" |}
  = Ok [ {| raw := "v1.0.0"; semver := plainSemVer "1" "0" "0" |};
         {| raw := "junk"; semver := zeroSemVer |} ]
  /\ map raw [ {| raw := "v1.0.0"; semver := plainSemVer "1" "0" "0" |};
               {| raw := "junk"; semver := zeroSemVer |} ]
     = ["v1.0.0"; "junk"].
Proof.
  assert (getVersionsFromTags
            (scenarioEnv "tags" "v" "false" ["v1.0.0"; "junk"] None)
            {| auth := "token ghs_token" |}
          = Ok [ {| raw := "v1.0.0"; semver := plainSemVer "1" "0" "0" |};
                 {| raw := "junk"; semver := zeroSemVer |} ]) as H
    by reflexivity.
  split; [exact H|].
  destruct (proj1 (getVersions_keep_labels _ _) _ H) as (res & Hres & Hraw & _).
  rewrite Hraw. injection Hres as <-. reflexivity.
Defined.

(** X9.  The [Repository] constructor splits [GITHUB_REPOSITORY] at the
    slash: for the value [owner/name] with no other slash, the fields are
    [owner] and [name]; a value without a slash becomes the owner with an
    empty name; an unset variable gives the empty owner and the empty
    name. *)
Theorem new_Repository_fields (env : Env) :
  (forall o n,
      GITHUB_REPOSITORY env = Some (o ++ "/" ++ n) ->
      noSlash o = true -> noSlash n = true ->
      new_Repository env = {| name := n; owner := o |})
  /\ (forall s,
         GITHUB_REPOSITORY env = Some s -> noSlash s = true ->
         new_Repository env = {| name := EmptyString; owner := s |})
  /\ (GITHUB_REPOSITORY env = None ->
      new_Repository env = {| name := EmptyString; owner := EmptyString |}).
Proof.
  unfold new_Repository, noSlash. repeat split.
  - intros o n -> Ho Hn. cbn [String.append].
    now rewrite (split_at_sep "/" o n Ho), (split_no_sep "/" n Hn).
  - intros s -> Hs. now rewrite (split_no_sep "/" s Hs).
  - now intros ->.
Qed.

Lemma new_Repository_fields_witness :
  new_Repository (scenarioEnv "tags" "v" "false" [] None)
  = {| name := "repo"; owner := "octo" |}.
Proof.
  apply (proj1 (new_Repository_fields _) "octo" "repo"); reflexivity.
Defined.

Section RunShape.

Lemma filterAndSortVersions_any_flag
  (versions : list Version) (prefix : string) (b b' : bool) :
  Forall Constructed versions ->
  filterAndSortVersions versions prefix b
  = filterAndSortVersions versions prefix b'.
Proof.
  intros H. pose proof (filterAndSortVersions_flag versions prefix H) as E.
  destruct b, b'; congruence.
Qed.

Lemma filterAndSortVersions_Constructed
  (versions : list Version) (prefix : string) (b : bool) :
  Forall Constructed versions ->
  Forall Constructed (filterAndSortVersions versions prefix b).
Proof.
  intros H. unfold filterAndSortVersions. apply sort_Forall.
  apply Forall_forall. intros x Hx. apply filter_In in Hx as [Hx _].
  rewrite Forall_forall in H. auto.
Qed.

Lemma Constructed_zero : Constructed {| raw := "0.0.0"; semver := zeroSemVer |}.
Proof. now exists "0.0.0". Qed.

Lemma events_after_retrieval (env : Env) :
  getInput env "token" <> EmptyString ->
  events env =
  match selectVersions env {| auth := "token " ++ getInput env "token" |} with
  | Ok allVersions =>
      match afterRetrieval env allVersions [] with
      | (Ok _, log) => log
      | (Throw e, log) => (log ++ [SetFailed e])%list
      end
  | Throw e => [SetFailed e]
  end.
Proof.
  intros Htok. unfold events, run, try_catch, hbind at 1, lift at 1.
  unfold getOctokitClient. rewrite (getOctokit_token _ Htok).
  fold (selectVersions env {| auth := "token " ++ getInput env "token" |}).
  unfold hbind at 1, lift at 1.
  destruct (selectVersions env _) as [versions|e]; [|reflexivity].
  fold (titleOf env). fold (afterRetrieval env versions).
  now destruct (afterRetrieval env versions []) as [[u|e] log].
Qed.

Lemma events_without_token (env : Env) :
  getInput env "token" = EmptyString ->
  events env = [SetFailed (Error "Parameter token or opts.auth is required")].
Proof.
  intros Htok. unfold events, run, try_catch, hbind at 1, lift at 1.
  unfold getOctokitClient. now rewrite Htok.
Qed.

Lemma selectVersions_fetched (env : Env) (octokit : Octokit)
  (labels : list string) :
  fetched env labels ->
  selectVersions env octokit = mapM new_Version labels.
Proof.
  unfold selectVersions.
  intros (res & <- & [[Hs Hp] | [Hs Hp]]); rewrite Hs;
    cbn [String.eqb Ascii.eqb Bool.eqb];
    unfold getVersionsFromTags, getVersionsFromReleases;
    fold (tagsRoute env); fold (releasesRoute env); now rewrite Hp.
Qed.

Lemma selectVersions_Constructed (env : Env) (octokit : Octokit)
  (versions : list Version) :
  selectVersions env octokit = Ok versions -> Forall Constructed versions.
Proof.
  unfold selectVersions, getVersionsFromTags, getVersionsFromReleases.
  destruct (String.eqb (getInput env "source") "tags").
  - destruct (paginate env _); [|discriminate]. apply mapM_Constructed.
  - destruct (String.eqb (getInput env "source") "releases"); [|discriminate].
    destruct (paginate env _); [|discriminate]. apply mapM_Constructed.
Qed.

Lemma afterRetrieval_eq (env : Env) (versions : list Version) :
  afterRetrieval env versions [] =
  match
    match filterAndSortVersions versions (getInput env "prefix")
            (String.eqb (getInput env "includePrereleases") "true")
    with
    | v :: _ => Ok v
    | [] => Ok {| raw := "0.0.0"; semver := zeroSemVer |}
    end
  with
  | Ok current =>
      match bumpVersion current (getIncrementLevelFromTitle (titleOf env)) with
      | Ok next =>
          (Ok tt,
           [SetOutput "currentVersion" (semver.raw (semver current));
            SetOutput "nextVersion" (semver.raw (semver next))])
      | Throw e => (Throw e, [])
      end
  | Throw e => (Throw e, [])
  end.
Proof.
  unfold afterRetrieval, hbind, lift, setOutput.
  destruct (filterAndSortVersions versions _ _) as [|v rest].
  - change (new_Version "0.0.0")
      with (Ok {| raw := "0.0.0"; semver := zeroSemVer |}).
    cbv beta iota. now destruct (bumpVersion _ _).
  - cbv beta iota. now destruct (bumpVersion _ _).
Qed.

(** What follows the retrieval ends in one failure or in the two outputs of
    a constructor-built current version and its bump. *)
Lemma afterRetrieval_shape (env : Env) (versions : list Version) :
  Forall Constructed versions ->
  (exists error, afterRetrieval env versions [] = (Throw error, []))
  \/ (exists current next,
         Constructed current
         /\ bumpVersion current (getIncrementLevelFromTitle (titleOf env))
            = Ok next
         /\ afterRetrieval env versions []
            = (Ok tt,
               [SetOutput "currentVersion" (semver.raw (semver current));
                SetOutput "nextVersion" (semver.raw (semver next))])).
Proof.
  intros Hc. rewrite afterRetrieval_eq.
  pose proof (filterAndSortVersions_Constructed versions (getInput env "prefix")
                (String.eqb (getInput env "includePrereleases") "true") Hc)
    as Hc'.
  destruct (filterAndSortVersions versions _ _) as [|v rest].
  - destruct (bumpVersion _ _) as [next|e] eqn:Hb.
    + right. eexists _, next. split; [apply Constructed_zero|]. now split.
    + left. now exists e.
  - destruct (bumpVersion v _) as [next|e] eqn:Hb.
    + right. exists v, next. inversion Hc'; subst. now repeat split.
    + left. now exists e.
Qed.

End RunShape.

(** X10.  All or nothing: every run ends either with exactly one
    [setFailed] and no output, or with exactly the two outputs
    [currentVersion] and [nextVersion], in this order, and no failure.  In
    the second case the current version is the raw text of the semantic
    version of a [Version] that the constructor built, and the next version
    is that of the [Version] which [bumpVersion] returns for it at the level
    resolved from the commit message. *)
Theorem run_all_or_nothing (env : Env) :
  (exists error, events env = [SetFailed error])
  \/ (exists current next,
         Constructed current
         /\ bumpVersion current (getIncrementLevelFromTitle (titleOf env))
            = Ok next
         /\ events env
            = [SetOutput "currentVersion" (semver.raw (semver current));
               SetOutput "nextVersion" (semver.raw (semver next))]).
Proof.
  destruct (String.eqb_spec (getInput env "token") EmptyString) as [Htok|Htok].
  { left. eexists. exact (events_without_token env Htok). }
  rewrite (events_after_retrieval env Htok).
  destruct (selectVersions env _) as [versions|e] eqn:E.
  - apply selectVersions_Constructed in E.
    destruct (afterRetrieval_shape env versions E)
      as [[e H] | (current & next & Hc & Hb & H)]; rewrite H.
    + left. now exists e.
    + right. exists current, next. split; [exact Hc|]. split; [exact Hb|].
      reflexivity.
  - left. now exists e.
Qed.

(** X11.  One rejected label fails the whole run: with a token present and
    a valid source, when the constructor throws on a label that the source
    answered with, and returns on the labels before it, the run reports
    that error with [setFailed] and sets no output, whatever the other
    labels are. *)
Theorem run_fails_on_rejected_label
  (env : Env) (good rest : list string) (bad : string) (e : JsError) :
  getInput env "token" <> EmptyString ->
  fetched env (good ++ bad :: rest) ->
  Forall (fun l => exists v, new_Version l = Ok v) good ->
  new_Version bad = Throw e ->
  events env = [SetFailed e].
Proof.
  intros Htok Hf Hg Hb.
  rewrite (events_after_retrieval env Htok).
  now rewrite (selectVersions_fetched env _ _ Hf), (mapM_first_throw _ _ _ _ Hg Hb).
Qed.

Lemma run_fails_on_rejected_label_witness :
  events (scenarioEnv "releases" "v" "true"
            ["v1.0.0"; "v2.0.0"; "v2.01.0"; "v3.0.0"] (Some "(MINOR)"))
  = [SetFailed (TypeError "Invalid Version: 2.01.0")].
Proof.
  apply (run_fails_on_rejected_label _ ["v1.0.0"; "v2.0.0"] ["v3.0.0"] "v2.01.0").
  - discriminate.
  - exists (Some ["v1.0.0"; "v2.0.0"; "v2.01.0"; "v3.0.0"]).
    split; [reflexivity|]. right. split; reflexivity.
  - repeat constructor; eexists; reflexivity.
  - reflexivity.
Defined.

(** X12.  The [includePrereleases] input changes nothing: two runs whose
    surroundings differ at most in that input report the same events. *)
Theorem run_ignores_includePrereleases (env env' : Env) :
  (forall name, name <> "includePrereleases" ->
                getInput env name = getInput env' name) ->
  GITHUB_REPOSITORY env = GITHUB_REPOSITORY env' ->
  (forall route, paginate env route = paginate env' route) ->
  head_commit_message env = head_commit_message env' ->
  events env = events env'.
Proof.
  intros Hin Hrepo Hpag Hmsg.
  assert (getInput env "token" = getInput env' "token") as Htok
    by (apply Hin; discriminate).
  assert (getInput env "prefix" = getInput env' "prefix") as Hpre
    by (apply Hin; discriminate).
  assert (getInput env "source" = getInput env' "source") as Hsrc
    by (apply Hin; discriminate).
  assert (forall o, selectVersions env o = selectVersions env' o) as Hsel.
  { intros o. unfold selectVersions, getVersionsFromTags,
      getVersionsFromReleases, new_Repository.
    now rewrite Hsrc, Hrepo, !Hpag. }
  destruct (String.eqb_spec (getInput env "token") EmptyString) as [E|E].
  { rewrite !events_without_token; congruence. }
  rewrite !events_after_retrieval by congruence.
  rewrite <- Htok, <- Hsel.
  destruct (selectVersions env _) as [versions|e] eqn:Es; [|reflexivity].
  apply selectVersions_Constructed in Es.
  unfold afterRetrieval, titleOf. rewrite <- Hpre, <- Hmsg.
  now rewrite (filterAndSortVersions_any_flag versions _
                 (String.eqb (getInput env "includePrereleases") "true")
                 (String.eqb (getInput env' "includePrereleases") "true") Es).
Qed.

Lemma run_ignores_includePrereleases_witness :
  events (scenarioEnv "tags" "v" "true" ["v1.0.0"; "v1.1.0-rc.1"] None)
  = events (scenarioEnv "tags" "v" "false" ["v1.0.0"; "v1.1.0-rc.1"] None).
Proof.
  apply run_ignores_includePrereleases; try reflexivity.
  intros name Hname. cbn.
  destruct (String.eqb name "token"); [reflexivity|].
  destruct (String.eqb name "prefix"); [reflexivity|].
  destruct (String.eqb name "source"); [reflexivity|].
  destruct (String.eqb_spec name "includePrereleases"); [contradiction|].
  reflexivity.
Defined.

(** X13.  The outputs of a run with candidates: with a token present, the
    versions retrieved, and a non-empty ranked list whose first element has
    its component to increment below [MAX_SAFE_INTEGER], the run emits that
    element's semantic version text as [currentVersion] and the canonical
    text of its incremented numbers as [nextVersion]; no kept version ranks
    above the current one. *)
Theorem run_outputs_of_candidates
  (env : Env) (versions : list Version) (current : Version)
  (rest : list Version) :
  getInput env "token" <> EmptyString ->
  retrieved env versions ->
  filterAndSortVersions versions (getInput env "prefix")
    (String.eqb (getInput env "includePrereleases") "true") = current :: rest ->
  component (getIncrementLevelFromTitle (titleOf env)) (semver current)
  < semver.MAX_SAFE_INTEGER ->
  events env
  = [SetOutput "currentVersion" (semver.raw (semver current));
     SetOutput "nextVersion"
       (raw (canonicalVersion
               (bumped (getIncrementLevelFromTitle (titleOf env))
                  (semver current))))]
  /\ Forall (ranksAtLeast current) (current :: rest).
Proof.
  intros Htok Hret Hsort Hlt.
  destruct (getVersions_retrieved env versions Hret) as (labels & _ & Hm).
  pose proof (mapM_Constructed _ _ Hm) as Hc.
  pose proof (filterAndSortVersions_Constructed versions (getInput env "prefix")
                (String.eqb (getInput env "includePrereleases") "true") Hc)
    as Hc'.
  rewrite Hsort in Hc'.
  split.
  - rewrite (events_retrieved env versions Htok Hret), Hsort.
    unfold try_catch, hbind at 1, lift at 1.
    assert (WellFormed current) as HW
      by (apply Constructed_WellFormed; now inversion Hc').
    rewrite (bumpVersion_eq current _ HW).
    destruct (WellFormed_inv current HW) as (_ & _ & _ & _ & _ & L1 & L2 & L3).
    pose proof (bumped_in_range _ _ L1 L2 L3 Hlt) as Hr.
    destruct (bumped _ (semver current)) as [[a b] c].
    destruct Hr as (La & Lb & Lc).
    rewrite (new_Version_canonical a b c La Lb Lc : new_Version (raw (canonicalVersion (a, b, c))) = _).
    reflexivity.
  - apply sorted_head_max; [exact Hc'|].
    rewrite <- Hsort. apply (sort_sorted descending descending_antisym).
Qed.

Lemma run_outputs_of_candidates_witness :
  events (scenarioEnv "tags" "rel-" "false"
            ["rel-1.4.2"; "v9.9.9"; "rel-1.12.0"; "rel-x"]
            (Some "feat: add flag (MINOR)"))
  = [SetOutput "currentVersion" "1.12.0"; SetOutput "nextVersion" "1.13.0"].
Proof.
  apply (proj1 (run_outputs_of_candidates
    (scenarioEnv "tags" "rel-" "false"
       ["rel-1.4.2"; "v9.9.9"; "rel-1.12.0"; "rel-x"]
       (Some "feat: add flag (MINOR)"))
    [ {| raw := "rel-1.4.2"; semver := plainSemVer "1" "4" "2" |};
      {| raw := "v9.9.9"; semver := plainSemVer "9" "9" "9" |};
      {| raw := "rel-1.12.0"; semver := plainSemVer "1" "12" "0" |};
      {| raw := "rel-x"; semver := zeroSemVer |} ]
    {| raw := "rel-1.12.0"; semver := plainSemVer "1" "12" "0" |}
    [ {| raw := "rel-1.4.2"; semver := plainSemVer "1" "4" "2" |} ]
    ltac:(discriminate)
    ltac:(left; split; reflexivity)
    ltac:(reflexivity)
    ltac:(reflexivity))).
Defined.

Section Canonical.

Lemma digits_uint (d : string) :
  Js.forallb Js.isDigit d = true ->
  exists u, NilEmpty.string_of_uint u = d.
Proof.
  induction d as [|c d IH]; [now exists Decimal.Nil|].
  cbn [Js.forallb]. intros H. apply andb_true_iff in H as [Hc Hd].
  destruct (IH Hd) as [u <-].
  destruct c as [[] [] [] [] [] [] [] []]; try discriminate Hc;
    first [ now exists (Decimal.D0 u) | now exists (Decimal.D1 u)
          | now exists (Decimal.D2 u) | now exists (Decimal.D3 u)
          | now exists (Decimal.D4 u) | now exists (Decimal.D5 u)
          | now exists (Decimal.D6 u) | now exists (Decimal.D7 u)
          | now exists (Decimal.D8 u) | now exists (Decimal.D9 u) ].
Qed.

(** A numeral without leading zeros is the decimal text of its value. *)
Lemma ofNumber_toNumber (d : string) :
  semver.isNumericIdentifier d = true -> Js.ofNumber (Js.toNumber d) = d.
Proof.
  intros Hn. pose proof (numericIdentifier_numeric d Hn) as Hd.
  apply isNumeric_inv in Hd as (Hd & _).
  destruct (digits_uint d Hd) as [u <-].
  rewrite toNumber_string_of_uint, ofNumber_eq, DecimalN.Unsigned.to_of.
  f_equal.
  destruct u; try reflexivity; [discriminate Hn|].
  cbn [NilEmpty.string_of_uint semver.isNumericIdentifier] in Hn.
  apply andb_true_iff in Hn as [_ Hz]. cbn in Hz.
  destruct u; try discriminate Hz. reflexivity.
Qed.

(** The semantic version of a constructor-built [Version] carries the
    canonical text of its three numbers as raw text. *)
Lemma Constructed_canonical (v : Version) :
  Constructed v ->
  semver.raw (semver v) = raw (canonicalVersion (triple (semver v)))
  /\ semver.major (semver v) <= semver.MAX_SAFE_INTEGER
  /\ semver.minor (semver v) <= semver.MAX_SAFE_INTEGER
  /\ semver.patch (semver v) <= semver.MAX_SAFE_INTEGER.
Proof.
  intros [label H].
  apply new_Version_Ok_inv in H
    as [_ [[_ ->] | (d1 & d2 & d3 & _ & -> & N1 & N2 & N3 & L1 & L2 & L3)]].
  - repeat split; unfold semver.MAX_SAFE_INTEGER; cbn; lia.
  - unfold triple, plainSemVer.
    cbn [canonicalVersion raw semver.raw semver.major semver.minor semver.patch].
    now rewrite !ofNumber_toNumber.
Qed.

End Canonical.

(** X14.  What the outputs are: whenever a run emits its two outputs, the
    current version is the canonical text [a.b.c] of three numbers at most
    [MAX_SAFE_INTEGER], written in decimal without leading zeros, and the
    next version is the canonical text of those numbers incremented at the
    level resolved from the commit message; both read back through the
    [SemVer] constructor, and the next version ranks strictly above the
    current one. *)
Theorem run_outputs_are_canonical (env : Env) (current next : string) :
  events env = [SetOutput "currentVersion" current;
                SetOutput "nextVersion" next] ->
  exists sv sv',
    semver.new_SemVer current = Ok sv
    /\ semver.new_SemVer next = Ok sv'
    /\ current = raw (canonicalVersion (triple sv))
    /\ next = raw (canonicalVersion
                     (bumped (getIncrementLevelFromTitle (titleOf env)) sv))
    /\ semver.prerelease sv = [] /\ semver.build sv = []
    /\ semver.prerelease sv' = [] /\ semver.build sv' = []
    /\ semver.compare sv' sv = 1%Z.
Proof.
  intros Hev.
  destruct (String.eqb_spec (getInput env "token") EmptyString) as [Htok|Htok].
  { rewrite (events_without_token env Htok) in Hev. discriminate Hev. }
  rewrite (events_after_retrieval env Htok) in Hev.
  destruct (selectVersions env _) as [versions|e] eqn:E; [|discriminate Hev].
  apply selectVersions_Constructed in E.
  destruct (afterRetrieval_shape env versions E)
    as [[e H] | (v & v' & Hc & Hb & H)]; rewrite H in Hev;
    [discriminate Hev|].
  injection Hev as <- <-.
  pose proof (Constructed_WellFormed v Hc) as HW.
  destruct (Constructed_canonical v Hc) as (Hraw & L1 & L2 & L3).
  assert (semver.prerelease (semver v) = [] /\ semver.build (semver v) = [])
    as [Hp Hbd] by (destruct Hc as [label Hl]; now apply new_Version_plain in Hl).
  apply (bumpVersion_Ok_inv _ _ _ HW) in Hb as [-> Hr].
  exists (semver v),
    (semver (canonicalVersion
               (bumped (getIncrementLevelFromTitle (titleOf env)) (semver v)))).
  pose proof (compare_bumped (semver v)
                (getIncrementLevelFromTitle (titleOf env))) as Hcmp.
  destruct (bumped (getIncrementLevelFromTitle (titleOf env)) (semver v))
    as [[a b] c]. destruct Hr as (La & Lb & Lc).
  repeat split; try assumption; try reflexivity.
  - clear Hcmp H HW.
    destruct (semver v) as [r ma mi pa pre bld].
    unfold triple in Hraw.
    cbn [canonicalVersion raw semver.raw semver.major semver.minor
         semver.patch semver.prerelease semver.build] in *.
    subst r pre bld.
    rewrite new_SemVer_canonical;
      rewrite ?toNumber_ofNumber; auto with numerals.
  - cbn [canonicalVersion raw semver semver.raw].
    rewrite new_SemVer_canonical;
      rewrite ?toNumber_ofNumber; auto with numerals.
Qed.

Lemma run_outputs_are_canonical_witness :
  exists sv sv',
    semver.new_SemVer "0.10.0" = Ok sv
    /\ semver.new_SemVer "1.0.0" = Ok sv'
    /\ "0.10.0" = raw (canonicalVersion (triple sv))
    /\ "1.0.0"
       = raw (canonicalVersion
                (bumped
                   (getIncrementLevelFromTitle
                      (titleOf (scenarioEnv "tags" "v" "false"
                                  ["v0.9.0"; "v0.10.0"]
                                  (Some "drop old API (MAJOR)"))))
                   sv))
    /\ semver.prerelease sv = [] /\ semver.build sv = []
    /\ semver.prerelease sv' = [] /\ semver.build sv' = []
    /\ semver.compare sv' sv = 1%Z.
Proof.
  apply (run_outputs_are_canonical
           (scenarioEnv "tags" "v" "false" ["v0.9.0"; "v0.10.0"]
              (Some "drop old API (MAJOR)"))
           "0.10.0" "1.0.0").
  reflexivity.
Defined.

(** ** Further properties of the increment resolver *)

Section LevelOrder.

Lemma Contains_extend (t s pre post : string) :
  Contains t s -> Contains t (pre ++ s ++ post).
Proof.
  intros (a & b & ->). exists (pre ++ a), (b ++ post).
  now rewrite !append_assoc.
Qed.

Lemma includes_extend (t s pre post : string) :
  Js.includes s t = true -> Js.includes (pre ++ s ++ post) t = true.
Proof. rewrite !includes_spec. apply Contains_extend. Qed.

End LevelOrder.

(** X15.  Text around a title never lowers the level: the level resolved
    from a text that contains a title as a substring is at least the level
    resolved from the title alone (patch below minor below major). *)
Theorem getIncrementLevelFromTitle_monotone (pre title post : string) :
  (levelRank (getIncrementLevelFromTitle title)
   <= levelRank (getIncrementLevelFromTitle (pre ++ title ++ post)))%nat.
Proof.
  unfold getIncrementLevelFromTitle.
  destruct (Js.includes title "(MAJOR)") eqn:HM.
  - now rewrite (includes_extend _ _ pre post HM).
  - destruct (Js.includes title "(MINOR)") eqn:Hm.
    + rewrite (includes_extend _ _ pre post Hm).
      destruct (Js.includes (pre ++ title ++ post) "(MAJOR)"); cbn; lia.
    + destruct (Js.includes title "(PATCH)"); cbn; lia.
Qed.
